(** * COBRA negotiation agents (buyer_agent.py): a shallow embedding

    The Python module defines a config-driven buyer ([CobraBuyer]), a seller
    with one piece of state ([CobraSeller.opening_price]) and two drivers
    ([test_buyer_scenarios], [test_seller_scenarios]).  Prices are Python
    ints (modelled as [Z]); the multipliers are Python floats, modelled
    bit-exactly as IEEE-754 binary64 values with the Standard Library's
    [SpecFloat] (round-to-nearest-even).  Every Python exception the code can
    raise (OverflowError / ValueError of [int]/[float] conversions, KeyError
    of [str.format]) is the [None] of an [option]. *)

From Stdlib Require Import ZArith String List Bool Lia.
From Stdlib Require Import Floats.SpecFloat.
Import ListNotations.
Open Scope string_scope.
Open Scope Z_scope.

Notation "'let*' x ':=' e 'in' k" :=
  (match e with Some x => k | None => None end)
  (at level 200, x pattern, e at level 100, right associativity).

(** ** Python floats *)
Module Py.

Definition prec : Z := 53.
Definition emax : Z := 1024.
Definition float := spec_float.

(** [float(z)] for an int [z]: correctly rounded; OverflowError when the
    rounded value is out of range. *)
Definition of_int (z : Z) : option float :=
  match binary_normalize prec emax z 0 false with
  | S754_infinity _ => None
  | f => Some f
  end.

(** [x * y] on two floats. *)
Definition mul (x y : float) : float := SFmul prec emax x y.

(** [int(f)]: truncation toward zero; ValueError on nan, OverflowError on
    an infinity. *)
Definition to_int (f : float) : option Z :=
  match f with
  | S754_zero _ => Some 0
  | S754_infinity _ => None
  | S754_nan => None
  | S754_finite s m e =>
      let a := Z.shiftl (Zpos m) e in
      Some (if s then - a else a)
  end.

(** [int(n * f)] for an int [n] and a float [f], as the code writes it
    ([int(context.product.base_market_price * acc_pct)] and the like):
    the int is converted to float, multiplied, then truncated. *)
Definition int_mul (n : Z) (f : float) : option Z :=
  let* x := of_int n in
  to_int (mul x f).

(** A decimal literal [n / d] of the source ([0.85] is [lit 85 100]): the
    correctly rounded quotient, which is what the Python parser produces. *)
Definition lit (n d : Z) : float :=
  SFdiv prec emax (binary_normalize prec emax n 0 false)
    (binary_normalize prec emax d 0 false).

(** [str(z)] for an int [z]. *)
Definition digit (d : Z) : Ascii.ascii := Ascii.ascii_of_nat (48 + Z.to_nat d).

Fixpoint show_digits (fuel : nat) (n : Z) (acc : string) : string :=
  match fuel with
  | O => acc
  | S f =>
      let acc' := String (digit (n mod 10)) acc in
      if n <? 10 then acc' else show_digits f (n / 10) acc'
  end.

Definition show (z : Z) : string :=
  match z with
  | Z0 => "0"
  | Zpos p => show_digits (Pos.size_nat p) (Zpos p) ""
  | Zneg p => "-" ++ show_digits (Pos.size_nat p) (Zpos p) ""
  end.

(** [", ".join(l)]. *)
Fixpoint join (sep : string) (l : list string) : string :=
  match l with
  | [] => ""
  | [x] => x
  | x :: r => x ++ sep ++ join sep r
  end.

(** A [str.format] template, already split into literal text and
    [{name}] replacement fields. *)
Inductive piece := Lit (s : string) | Field (name : string).
Definition template := list piece.

Fixpoint assoc {A} (k : string) (l : list (string * A)) : option A :=
  match l with
  | [] => None
  | (k', v) :: r => if String.eqb k k' then Some v else assoc k r
  end.

(** [tpl.format] with keyword arguments [kw]: KeyError for a field absent from [kw]; unused
    keyword arguments are ignored. *)
Fixpoint format (t : template) (kw : list (string * string)) : option string :=
  match t with
  | [] => Some ""
  | Lit s :: r => let* rest := format r kw in Some (s ++ rest)
  | Field n :: r =>
      let* v := assoc n kw in
      let* rest := format r kw in Some (v ++ rest)
  end.

(** [d.get(k, default)] on an optional key. *)
Definition get {A} (o : option A) (default : A) : A :=
  match o with Some v => v | None => default end.

End Py.

Import Py.

(** ** Data structures *)

Record Product := mkProduct {
  name : string;
  category : string;
  quantity : Z;
  quality_grade : string;
  origin : string;
  base_market_price : Z;
  attributes : list (string * string)
}.

Record NegotiationContext := mkContext {
  product : Product;
  your_budget : Z;
  current_round : Z;
  seller_offers : list Z;
  your_offers : list Z;
  messages : list (string * string)
}.

Inductive DealStatus := ONGOING | ACCEPTED | REJECTED.

(** A personality configuration: the JSON object of one agent.  Every key is
    optional; [None] is an absent key. *)
Record Config := mkConfig {
  opening_multiplier : option float;
  accept_threshold_percentage : option float;
  early_round_multiplier : option float;
  mid_round_multiplier : option float;
  force_close_round : option Z;
  catchphrases : option (list (string * template));
  extras : option (list string)
}.

Definition empty_config : Config :=
  mkConfig None None None None None None None.

(** ** CobraBuyer *)
Module Buyer.

Definition default_early_round_multiplier : float := lit 85 100.
Definition default_accept_threshold_percentage : float := lit 9 10.
Definition default_mid_round_multiplier : float := lit 92 100.
Definition default_force_close_round : Z := 10.

Definition opening_default : template := [Lit "Starting at ₹"; Field "price"; Lit "."].
Definition final_default : template :=
  [Lit "Final from me: ₹"; Field "price"; Lit ". Can we sign today?"].
Definition mid_round_default : template := [Lit "Let’s wrap at ₹"; Field "price"; Lit "."].
Definition standard_default : template := [Lit "I can do ₹"; Field "price"; Lit "."].

(** [CobraBuyer.generate_opening_offer] *)
Definition generate_opening_offer (config : Config) (context : NegotiationContext)
  : option (Z * string) :=
  let early_mult := get (early_round_multiplier config) default_early_round_multiplier in
  let* v := int_mul (base_market_price (product context)) early_mult in
  let offer := Z.min v (your_budget context) in
  let msg_tpl := get (assoc "opening" (get (catchphrases config) [])) opening_default in
  let* msg := format msg_tpl [("price", show offer)] in
  Some (offer, msg).

(** [CobraBuyer.respond_to_seller_offer] *)
Definition respond_to_seller_offer (config : Config) (context : NegotiationContext)
    (seller_price : Z) (seller_message : string) : option (DealStatus * Z * string) :=
  let round_num := current_round context in
  let acc_pct := get (accept_threshold_percentage config) default_accept_threshold_percentage in
  let early_mult := get (early_round_multiplier config) default_early_round_multiplier in
  let mid_mult := get (mid_round_multiplier config) default_mid_round_multiplier in
  let force_round := get (force_close_round config) default_force_close_round in
  let phrases := get (catchphrases config) [] in
  let* threshold := int_mul (base_market_price (product context)) acc_pct in
  if (seller_price <=? threshold) && (seller_price <=? your_budget context) then
    Some (ACCEPTED, seller_price,
          "Deal accepted at ₹" ++ show seller_price ++ "! Let's finalize.")
  else if force_round <=? round_num then
    let final_offer := Z.min seller_price (your_budget context) in
    let* msg := format (get (assoc "final" phrases) final_default)
                       [("price", show final_offer)] in
    Some (ONGOING, final_offer, msg)
  else
    let* cm :=
      if force_round - 3 <=? round_num then
        let* v := int_mul seller_price mid_mult in
        let counter_offer := Z.min v (your_budget context) in
        let* message := format (get (assoc "mid_round" phrases) mid_round_default)
                               [("price", show counter_offer)] in
        Some (counter_offer, message)
      else
        let* v := int_mul seller_price early_mult in
        let counter_offer := Z.min v (your_budget context) in
        let* message := format (get (assoc "standard" phrases) standard_default)
                               [("price", show counter_offer)] in
        Some (counter_offer, message) in
    let '(counter_offer, message) := cm in
    Some (ONGOING, counter_offer, message).

End Buyer.

(** ** CobraSeller *)
Module Seller.

Record CobraSeller := mkSeller {
  min_price : Z;
  config : Config;
  opening_price : option Z
}.

Definition default_opening_multiplier : float := lit 12 10.
Definition default_early_round_multiplier : float := lit 11 10.
Definition default_mid_round_multiplier : float := lit 104 100.
Definition default_force_close_round : Z := 10.

Definition opening_default : template :=
  [Field "quality_grade"; Lit " "; Field "product_name"; Lit " at ₹"; Field "price"; Lit "."].
Definition force_close_default : template := [Lit "Last price ₹"; Field "price"; Lit "."].
Definition mid_round_default : template :=
  [Lit "₹"; Field "price"; Lit " including "; Field "extras"; Lit "."].
Definition early_round_default : template :=
  [Lit "₹"; Field "price"; Lit " including "; Field "extras"; Lit "."].

(** [CobraSeller.__init__] *)
Definition init (product_min_price : Z) (cfg : Config) : CobraSeller :=
  mkSeller product_min_price cfg None.

(** [CobraSeller.get_opening_price]: returns the updated seller (the
    assignment to [self.opening_price]) with the method's result. *)
Definition get_opening_price (self : CobraSeller) (p : Product)
  : option (CobraSeller * (Z * string)) :=
  let opening_mult := get (opening_multiplier (config self)) default_opening_multiplier in
  let* op := int_mul (base_market_price p) opening_mult in
  let self' := mkSeller (min_price self) (config self) (Some op) in
  let msg_tpl := get (assoc "opening" (get (catchphrases (config self)) [])) opening_default in
  let* message := format msg_tpl [("quality_grade", quality_grade p);
                                  ("product_name", name p); ("price", show op)] in
  Some (self', (op, message)).

(** The clamp [if self.opening_price is not None: counter = min(counter,
    self.opening_price)]. *)
Definition clamp (opening : option Z) (counter : Z) : Z :=
  match opening with Some o => Z.min counter o | None => counter end.

(** [CobraSeller.respond_to_buyer] *)
Definition respond_to_buyer (self : CobraSeller) (buyer_offer round_num : Z)
  : option (Z * string * bool) :=
  let cfg := config self in
  let early_mult := get (early_round_multiplier cfg) default_early_round_multiplier in
  let mid_mult := get (mid_round_multiplier cfg) default_mid_round_multiplier in
  let force_round := get (force_close_round cfg) default_force_close_round in
  let phrases := get (catchphrases cfg) [] in
  let extras_list := get (extras cfg) [] in
  let ex := match extras_list with [] => "" | _ => join ", " extras_list end in
  if min_price self <=? buyer_offer then
    Some (buyer_offer, "You have a deal at ₹" ++ show buyer_offer ++ "!", true)
  else if force_round <=? round_num then
    let counter := Z.max (min_price self) buyer_offer in
    let* msg := format (get (assoc "force_close" phrases) force_close_default)
                       [("price", show counter)] in
    Some (clamp (opening_price self) counter, msg, false)
  else
    let* cm :=
      if force_round - 3 <=? round_num then
        let* v := int_mul buyer_offer mid_mult in
        let counter := Z.max (min_price self) v in
        let* msg := format (get (assoc "mid_round" phrases) mid_round_default)
                           [("price", show counter); ("extras", ex)] in
        Some (counter, msg)
      else
        let* v := int_mul buyer_offer early_mult in
        let counter := Z.max (min_price self) v in
        let* msg := format (get (assoc "early_round" phrases) early_round_default)
                           [("price", show counter); ("extras", ex)] in
        Some (counter, msg) in
    let '(counter, msg) := cm in
    Some (clamp (opening_price self) counter, msg, false).

End Seller.

(** ** The two negotiation drivers *)
Module Driver.
Import Seller.

(** Who closed the deal: the buyer accepting the seller's price
    (["Deal closed by buyer!"]) or the seller accepting the buyer's
    offer. *)
Inductive Closer := ByBuyer | BySeller.

(** The end of a session: the final context (round counter, both offer
    lists, transcript), the seller's state and the deal, if any. *)
Record Outcome := mkOutcome {
  final_context : NegotiationContext;
  final_seller : CobraSeller;
  deal : option (Closer * Z)
}.

(** [context.your_offers.append(o); context.messages.append(...)] *)
Definition record_buyer (c : NegotiationContext) (o : Z) (m : string) : NegotiationContext :=
  mkContext (product c) (your_budget c) (current_round c) (seller_offers c)
    (app (your_offers c) [o]) (app (messages c) [("buyer", m)]).

Definition record_seller (c : NegotiationContext) (o : Z) (m : string) : NegotiationContext :=
  mkContext (product c) (your_budget c) (current_round c) (app (seller_offers c) [o])
    (your_offers c) (app (messages c) [("seller", m)]).

(** [context.current_round += 1] *)
Definition next_round (c : NegotiationContext) : NegotiationContext :=
  mkContext (product c) (your_budget c) (current_round c + 1) (seller_offers c)
    (your_offers c) (messages c).

Definition start (p : Product) (budget : Z) : NegotiationContext :=
  mkContext p budget 1 [] [] [].

(** The [while not accepted and context.current_round < 10] loop of
    [test_buyer_scenarios]; [fuel] bounds the unfolding (each iteration
    increments the round, so [10 - round] iterations suffice, see
    [buyer_loop_fuel]). *)
Fixpoint buyer_loop (fuel : nat) (bcfg : Config) (seller : CobraSeller)
    (c : NegotiationContext) (seller_offer : Z) (seller_msg : string) (accepted : bool)
  : option Outcome :=
  if negb accepted && (current_round c <? 10) then
    match fuel with
    | O => None
    | S fuel' =>
        let c := next_round c in
        let* r := Buyer.respond_to_seller_offer bcfg c seller_offer seller_msg in
        let '(status, buyer_offer, buyer_msg) := r in
        let c := record_buyer c buyer_offer buyer_msg in
        match status with
        | ACCEPTED => Some (mkOutcome c seller (Some (ByBuyer, buyer_offer)))
        | _ =>
            let* s := respond_to_buyer seller buyer_offer (current_round c) in
            let '(seller_offer, seller_msg, accepted) := s in
            let c := record_seller c seller_offer seller_msg in
            if accepted then Some (mkOutcome c seller (Some (BySeller, seller_offer)))
            else buyer_loop fuel' bcfg seller c seller_offer seller_msg accepted
        end
    end
  else Some (mkOutcome c seller (if accepted then Some (BySeller, seller_offer) else None)).

(** [test_buyer_scenarios], with the configurations, the seller's minimum
    price, the product and the budget as parameters. *)
Definition test_buyer_scenarios (bcfg scfg : Config) (seller_min : Z)
    (p : Product) (budget : Z) : option Outcome :=
  let seller := init seller_min scfg in
  let c := start p budget in
  let* b := Buyer.generate_opening_offer bcfg c in
  let '(buyer_offer, buyer_msg) := b in
  let c := record_buyer c buyer_offer buyer_msg in
  let* s := respond_to_buyer seller buyer_offer (current_round c) in
  let '(seller_offer, seller_msg, accepted) := s in
  let c := record_seller c seller_offer seller_msg in
  buyer_loop 10 bcfg seller c seller_offer seller_msg accepted.

(** The loop of [test_seller_scenarios]. *)
Fixpoint seller_loop (fuel : nat) (bcfg : Config) (seller : CobraSeller)
    (c : NegotiationContext) (buyer_offer : Z) (accepted : bool)
  : option Outcome :=
  if negb accepted && (current_round c <? 10) then
    match fuel with
    | O => None
    | S fuel' =>
        let c := next_round c in
        let* s := respond_to_buyer seller buyer_offer (current_round c) in
        let '(seller_offer, seller_msg, accepted) := s in
        let c := record_seller c seller_offer seller_msg in
        if accepted then Some (mkOutcome c seller (Some (BySeller, seller_offer)))
        else
          let* r := Buyer.respond_to_seller_offer bcfg c seller_offer seller_msg in
          let '(status, buyer_offer, buyer_msg) := r in
          let c := record_buyer c buyer_offer buyer_msg in
          match status with
          | ACCEPTED => Some (mkOutcome c seller (Some (ByBuyer, buyer_offer)))
          | _ => seller_loop fuel' bcfg seller c buyer_offer accepted
          end
    end
  else Some (mkOutcome c seller None).

(** [test_seller_scenarios] *)
Definition test_seller_scenarios (bcfg scfg : Config) (seller_min : Z)
    (p : Product) (budget : Z) : option Outcome :=
  let seller := init seller_min scfg in
  let c := start p budget in
  let* o := get_opening_price seller p in
  let '(seller, (seller_offer, seller_msg)) := o in
  let c := record_seller c seller_offer seller_msg in
  let* r := Buyer.respond_to_seller_offer bcfg c seller_offer seller_msg in
  let '(status, buyer_offer, buyer_msg) := r in
  let c := record_buyer c buyer_offer buyer_msg in
  match status with
  | ACCEPTED => Some (mkOutcome c seller (Some (ByBuyer, buyer_offer)))
  | _ => seller_loop 10 bcfg seller c buyer_offer false
  end.

End Driver.

Definition mangoes (base : Z) : Product :=
  mkProduct "Alphonso Mangoes" "Mangoes" 100 "A" "Ratnagiri" base [("ripeness", "optimal")].

Example lit_085 : Buyer.default_early_round_multiplier = S754_finite false 7656119366529843 (-53).
Proof. vm_compute. reflexivity. Qed.
Example lit_12 : Seller.default_opening_multiplier = S754_finite false 5404319552844595 (-52).
Proof. vm_compute. reflexivity. Qed.
Example show_ex : show 143055 = "143055" /\ show (-20) = "-20" /\ show 0 = "0".
Proof. vm_compute. auto. Qed.

(** ** Helper definitions used in statements *)

(** Line 133: [threshold = int(context.product.base_market_price * acc_pct)]. *)
Definition buyer_threshold (cfg : Config) (ctx : NegotiationContext) : option Z :=
  int_mul (base_market_price (product ctx))
    (get (accept_threshold_percentage cfg) Buyer.default_accept_threshold_percentage).

Definition buyer_force_round (cfg : Config) : Z :=
  get (force_close_round cfg) Buyer.default_force_close_round.

(** The shape of the seller's offer list at the end of a seller-first
    session: all offers at most the opening price [o], except a last offer
    that is an accepted buyer offer. *)
Definition offers_below_opening (o : Z) (out : Driver.Outcome) : Prop :=
  match Driver.deal out with
  | Some (Driver.BySeller, p) =>
      exists l, seller_offers (Driver.final_context out) = app l [p] /\ Forall (fun x => x <= o) l
  | _ => Forall (fun x => x <= o) (seller_offers (Driver.final_context out))
  end.

(** Line 189: [self.opening_price = int(product.base_market_price * opening_mult)]. *)
Definition seller_opening (scfg : Config) (p : Product) : option Z :=
  int_mul (base_market_price p)
    (get (opening_multiplier scfg) Seller.default_opening_multiplier).

(** [z] is the floor of the nonnegative float [f]. *)
Definition is_floor_of (f : float) (z : Z) : Prop :=
  match f with
  | S754_zero _ => z = 0
  | S754_finite false m e =>
      if 0 <=? e then z = Zpos m * 2 ^ e
      else z * 2 ^ (- e) <= Zpos m < (z + 1) * 2 ^ (- e)
  | _ => False
  end.

Definition float_nonneg (f : float) : Prop :=
  match f with
  | S754_zero _ | S754_finite false _ _ => True
  | _ => False
  end.

(** The spec's reading of the opening price: Python's [round] of the float
    product, to the nearest integer with ties to even (spec §4.3, "Opening
    price = round(basePrice * openingMultiplier)").  Not in the source. *)
Definition spec_round (f : float) : option Z :=
  match f with
  | S754_zero _ => Some 0
  | S754_finite s m e =>
      let a :=
        if 0 <=? e then Zpos m * 2 ^ e
        else
          let q := Zpos m / 2 ^ (- e) in
          let r := Zpos m mod 2 ^ (- e) in
          match Z.compare (2 * r) (2 ^ (- e)) with
          | Lt => q
          | Gt => q + 1
          | Eq => if Z.even q then q else q + 1
          end in
      Some (if s then - a else a)
  | _ => None
  end.

(** Configurations used by the concrete sessions below. *)
Definition seller_cfg_low_opening : Config :=
  mkConfig (Some (lit 85 100)) None None None None None None.
Definition seller_cfg_force_close_14 : Config :=
  mkConfig None None None None (Some 14) None None.
Definition buyer_cfg_early_15 : Config :=
  mkConfig None None (Some (lit 15 10)) None None None None.

(** ** Well-formed configurations *)

(** [f] is finite and [|f| < 2^k]: its mantissa has at most [k - e] bits. *)
Definition float_below (k : Z) (f : float) : Prop :=
  match f with
  | S754_zero _ => True
  | S754_finite _ m e => Zpos (digits2_pos m) + e <= k
  | _ => False
  end.

(** A constraint on an optional key: an absent key satisfies it. *)
Definition opt_ok {A} (P : A -> Prop) (o : option A) : Prop :=
  match o with Some v => P v | None => True end.

(** Every replacement field of [t] is one of [names]. *)
Definition fields_in (t : template) (names : list string) : bool :=
  forallb (fun pc => match pc with Lit _ => true | Field n => existsb (String.eqb n) names end) t.

(** A buyer configuration whose present keys are usable: finite multipliers
    below [2^256], and catchphrases that only use the [{price}] field. *)
Definition buyer_config_ok (cfg : Config) : Prop :=
  opt_ok (float_below 256) (accept_threshold_percentage cfg) /\
  opt_ok (float_below 256) (early_round_multiplier cfg) /\
  opt_ok (float_below 256) (mid_round_multiplier cfg) /\
  opt_ok (fun ph => forallb (fun kt => fields_in (snd kt) ["price"]) ph = true) (catchphrases cfg).

(** The same for a seller: the [force_close] catchphrase is formatted with
    [price] only, the others with [price] and [extras]. *)
Definition seller_config_ok (cfg : Config) : Prop :=
  opt_ok (float_below 256) (early_round_multiplier cfg) /\
  opt_ok (float_below 256) (mid_round_multiplier cfg) /\
  opt_ok (fun ph => forallb (fun kt =>
            fields_in (snd kt)
              (if String.eqb (fst kt) "force_close" then ["price"] else ["price"; "extras"])) ph = true)
    (catchphrases cfg).

(** The buyer's configuration with every absent key of
    [accept_threshold_percentage], [early_round_multiplier],
    [mid_round_multiplier], [force_close_round], [catchphrases] set to its
    documented default. *)
Definition buyer_with_defaults (cfg : Config) : Config :=
  mkConfig (opening_multiplier cfg)
    (Some (get (accept_threshold_percentage cfg) Buyer.default_accept_threshold_percentage))
    (Some (get (early_round_multiplier cfg) Buyer.default_early_round_multiplier))
    (Some (get (mid_round_multiplier cfg) Buyer.default_mid_round_multiplier))
    (Some (get (force_close_round cfg) Buyer.default_force_close_round))
    (Some (get (catchphrases cfg) []))
    (extras cfg).

(** The seller's configuration with every absent key of
    [early_round_multiplier], [mid_round_multiplier], [force_close_round],
    [catchphrases], [extras] set to its documented default. *)
Definition seller_with_defaults (cfg : Config) : Config :=
  mkConfig (opening_multiplier cfg) (accept_threshold_percentage cfg)
    (Some (get (early_round_multiplier cfg) Seller.default_early_round_multiplier))
    (Some (get (mid_round_multiplier cfg) Seller.default_mid_round_multiplier))
    (Some (get (force_close_round cfg) Seller.default_force_close_round))
    (Some (get (catchphrases cfg) []))
    (Some (get (extras cfg) [])).

(** ** Transcripts *)

(** The roles of a transcript of [n] messages that alternate between [a]
    and [b], starting with [a]. *)
Fixpoint alternating (n : nat) (a b : string) : list string :=
  match n with O => [] | S n' => a :: alternating n' b a end.

(** The [role] of the message with which the closing party accepted. *)
Definition closer_role (w : Driver.Closer) : string :=
  match w with Driver.ByBuyer => "buyer" | Driver.BySeller => "seller" end.

(** [1] when the session's deal was closed by [w], else [0]. *)
Definition closed_by (w : Driver.Closer) (d : option (Driver.Closer * Z)) : nat :=
  match d with
  | Some (w', _) => match w, w' with
                   | Driver.ByBuyer, Driver.ByBuyer | Driver.BySeller, Driver.BySeller => 1
                   | _, _ => 0 end
  | None => 0
  end.

(** More configurations for concrete runs: a buyer who forces closure at
    round 9, a buyer whose [final] catchphrase names a field the code does
    not pass, a seller whose [force_close] catchphrase uses [{extras}], and
    an [opening] catchphrase naming the product. *)
Definition buyer_cfg_force_9 : Config :=
  mkConfig None None None None (Some 9) None None.
Definition buyer_cfg_bad_final : Config :=
  mkConfig None None None None None (Some [("final", [Lit "Final: ₹"; Field "amount"])]) None.
Definition cfg_named_opening : Config :=
  mkConfig None None None None None
    (Some [("opening", [Lit "Fresh "; Field "product_name"; Lit " at ₹"; Field "price"])]) None.

(** ** Proof tooling *)

(** Split every [match] on an option, a boolean test or a tuple that the
    hypotheses mention, keeping the equations. *)
Ltac split_matches :=
  repeat match goal with
  | H : Some _ = Some _ |- _ => injection H as; subst
  | H : None = Some _ |- _ => discriminate H
  | H : false = true |- _ => discriminate H
  | H : true = false |- _ => discriminate H
  | H : context [match ?x with _ => _ end] |- _ =>
      lazymatch x with
      | context [match _ with _ => _ end] => fail
      | _ => destruct x eqn:?
      end
  end.

Lemma min_le_r (a b : Z) : Z.min a b <= b.
Proof. lia. Qed.

(** ** Range of the float computations

    [int(n * f)] is computed exactly when the rounded product is a finite
    float; these lemmas bound the exponent of the rounded product. *)

Ltac gen_pows :=
  repeat match goal with
  | H : context [2 ^ ?e] |- _ => let x := fresh "w" in set (x := 2 ^ e) in *; clearbody x
  | |- context [2 ^ ?e] => let x := fresh "w" in set (x := 2 ^ e) in *; clearbody x
  end.

Lemma digits2_bounds (p : positive) :
  2 ^ (Zpos (digits2_pos p) - 1) <= Zpos p < 2 ^ Zpos (digits2_pos p).
Proof.
  induction p as [p IH|p IH|]; simpl digits2_pos; [| |simpl; lia].
  all: rewrite Pos2Z.inj_succ.
  all: assert (Hd : 0 < Zpos (digits2_pos p)) by reflexivity.
  all: revert IH Hd; generalize (Zpos (digits2_pos p)); intros d IH Hd.
  all: replace (Z.succ d - 1) with d by lia.
  all: pose proof (Z.pow_succ_r 2 (d - 1) ltac:(lia)) as E2.
  all: replace (Z.succ (d - 1)) with d in E2 by lia.
  all: pose proof (Z.pow_succ_r 2 d ltac:(lia)) as E3.
  - rewrite (Pos2Z.inj_xI p). gen_pows; lia.
  - rewrite (Pos2Z.inj_xO p). gen_pows; lia.
Qed.

Lemma digits2_le (p : positive) (k : Z) :
  Zpos p < 2 ^ k -> Zpos (digits2_pos p) <= k.
Proof.
  intros H. destruct (digits2_bounds p) as [H1 _].
  destruct (Z.le_gt_cases k 0) as [Hk|Hk].
  - destruct (Z.eq_dec k 0) as [->|]; [simpl in H; lia|].
    rewrite Z.pow_neg_r in H by lia. lia.
  - assert (H2 : 2 ^ (Zpos (digits2_pos p) - 1) < 2 ^ k) by (gen_pows; lia).
    apply Z.pow_lt_mono_r_iff in H2; lia.
Qed.

Lemma shr_1_m (r : shr_record) : 0 <= shr_m r -> shr_m (shr_1 r) = shr_m r / 2.
Proof.
  destruct r as [m rr s]; simpl; intros H.
  destruct m as [|[p|p|]|p]; simpl; try reflexivity; try lia;
    rewrite <- Z.div2_div; reflexivity.
Qed.

Lemma pow2_pos (k : Z) : 0 <= k -> 0 < 2 ^ k.
Proof. intros; apply Z.pow_pos_nonneg; lia. Qed.

Lemma iter_shr_m (p : positive) (r : shr_record) :
  0 <= shr_m r -> shr_m (iter_pos shr_1 p r) = shr_m r / 2 ^ Zpos p.
Proof.
  pose proof (pow2_pos (Zpos p) ltac:(lia)) as Hp.
  revert r; induction p as [p IH|p IH|]; intros r H; simpl iter_pos.
  - pose proof (pow2_pos (Zpos p) ltac:(lia)) as Hp'.
    assert (H1 : 0 <= shr_m (shr_1 r)) by (rewrite shr_1_m by lia; apply Z.div_pos; lia).
    assert (H2 : 0 <= shr_m (iter_pos shr_1 p (shr_1 r))) by (rewrite IH by lia; apply Z.div_pos; lia).
    rewrite IH, IH, shr_1_m by lia.
    rewrite Z.div_div, Z.div_div by (try apply Z.neq_mul_0; lia).
    f_equal. rewrite (Pos2Z.inj_xI p).
    replace (2 * Zpos p + 1) with (1 + (Zpos p + Zpos p)) by lia.
    rewrite !Z.pow_add_r by lia. change (2 ^ 1) with 2. ring.
  - pose proof (pow2_pos (Zpos p) ltac:(lia)) as Hp'.
    assert (H2 : 0 <= shr_m (iter_pos shr_1 p r)) by (rewrite IH by lia; apply Z.div_pos; lia).
    rewrite IH, IH by lia. rewrite Z.div_div by lia. f_equal.
    rewrite (Pos2Z.inj_xO p). replace (2 * Zpos p) with (Zpos p + Zpos p) by lia.
    rewrite Z.pow_add_r by lia. reflexivity.
  - rewrite shr_1_m by lia. reflexivity.
Qed.

Lemma shr_fexp_spec (m e : Z) (l : location) :
  0 <= m ->
  let '(r, e') := shr_fexp 53 1024 m e l in
  shr_m r = m / 2 ^ (e' - e) /\ e' = Z.max e (fexp 53 1024 (Zdigits2 m + e)).
Proof.
  intros Hm. unfold shr_fexp, shr.
  assert (Hl : shr_m (shr_record_of_loc m l) = m) by (destruct l as [|[]]; reflexivity).
  destruct (fexp 53 1024 (Zdigits2 m + e) - e) as [|p|p] eqn:E.
  - rewrite Z.sub_diag, Z.div_1_r. split; [exact Hl|lia].
  - rewrite iter_shr_m by lia. rewrite Hl. split; [f_equal; f_equal; lia|lia].
  - rewrite Z.sub_diag, Z.div_1_r. split; [exact Hl|lia].
Qed.

Lemma rne_bounds (m : Z) (l : location) :
  m <= round_nearest_even m l <= m + 1.
Proof.
  destruct l as [|[]]; simpl; try lia. destruct (Z.even m); lia.
Qed.

Lemma fexp_eq (x : Z) : fexp 53 1024 x = Z.max (x - 53) (-1074).
Proof. reflexivity. Qed.

(** [a / 2^k] has at most [D - k] binary digits when [a < 2^D]. *)
Lemma div_pow_digits (a k D : Z) (q : positive) :
  0 <= k -> 0 <= a -> a < 2 ^ D -> a / 2 ^ k = Zpos q ->
  Zpos (digits2_pos q) <= D - k.
Proof.
  intros Hk Ha HD Hq. pose proof (pow2_pos k Hk) as Pk.
  destruct (Z.lt_ge_cases (D - k) 0) as [Hlt|Hge].
  - assert (a < 2 ^ k).
    { destruct (Z.lt_ge_cases D 0).
      - rewrite Z.pow_neg_r in HD by lia. lia.
      - apply Z.lt_le_trans with (2 ^ D); [lia|]. apply Z.pow_le_mono_r; lia. }
    rewrite Z.div_small in Hq by lia. discriminate.
  - apply digits2_le. rewrite <- Hq. apply Z.div_lt_upper_bound; [lia|].
    rewrite <- Z.pow_add_r by lia. replace (k + (D - k)) with D by lia. exact HD.
Qed.

(** Rounding a positive mantissa [mx * 2^ex] whose magnitude stays below
    [2^1023] never overflows, and bounds the exponent and size of the
    result. *)
Lemma round_aux_finite (s : bool) (mx : positive) (ex : Z) (l : location) :
  ex <= 971 -> Zpos (digits2_pos mx) + ex <= 1023 ->
  match binary_round_aux 53 1024 s (Zpos mx) ex l with
  | S754_zero _ => True
  | S754_finite _ m e =>
      e <= Z.max ex (Z.max (Zpos (digits2_pos mx) + ex - 52) (-1074)) /\
      Zpos (digits2_pos m) + e <= Z.max (Zpos (digits2_pos mx) + ex + 1) (-1072)
  | _ => False
  end.
Proof.
  intros Hex HD. unfold binary_round_aux.
  set (D := Zpos (digits2_pos mx)) in *.
  pose proof (digits2_bounds mx) as [_ HmxD]. fold D in HmxD.
  assert (HD1 : 1 <= D) by (unfold D; lia).
  pose proof (shr_fexp_spec (Zpos mx) ex l ltac:(lia)) as S1.
  destruct (shr_fexp 53 1024 (Zpos mx) ex l) as [r1 e1].
  destruct S1 as [S1m S1e]. rewrite fexp_eq in S1e. change (Zdigits2 (Zpos mx)) with D in S1e. clearbody D.
  pose proof (rne_bounds (shr_m r1) (loc_of_shr_record r1)) as R.
  set (m1 := round_nearest_even (shr_m r1) (loc_of_shr_record r1)) in *. clearbody m1.
  assert (Hs1 : 0 <= shr_m r1) by (rewrite S1m; apply Z.div_pos; [lia|apply pow2_pos; lia]).
  (* size of the rounded mantissa *)
  assert (Hd1 : 0 <= m1 /\ Zdigits2 m1 + e1 <= Z.max (D + ex + 1) (-1073)).
  { split; [lia|].
    destruct m1 as [|q|q]; [simpl; lia| |lia]. simpl Zdigits2.
    destruct (shr_m r1) as [|q1|q1] eqn:Es1.
    - replace q with 1%positive by (apply Pos2Z.inj; lia). simpl digits2_pos. lia.
    - pose proof (div_pow_digits (Zpos mx) (e1 - ex) D q1 ltac:(lia) ltac:(lia) HmxD
                    (eq_sym S1m)) as Dq1.
      pose proof (digits2_bounds q1) as [_ Hq1].
      assert (Zpos q < 2 ^ (D - (e1 - ex) + 1)).
      { rewrite Z.pow_add_r by lia.
        assert (Zpos q1 < 2 ^ (D - (e1 - ex))).
        { apply Z.lt_le_trans with (2 ^ Zpos (digits2_pos q1)); [lia|].
          apply Z.pow_le_mono_r; lia. }
        change (2 ^ 1) with 2. lia. }
      apply digits2_le in H. lia.
    - lia. }
  destruct Hd1 as [Hm1 Hd1].
  pose proof (shr_fexp_spec m1 e1 loc_Exact Hm1) as S2.
  destruct (shr_fexp 53 1024 m1 e1 loc_Exact) as [r2 e2].
  destruct S2 as [S2m S2e]. rewrite fexp_eq in S2e.
  assert (Hs2 : 0 <= shr_m r2) by (rewrite S2m; apply Z.div_pos; [lia|apply pow2_pos; lia]).
  destruct (shr_m r2) as [|m|m] eqn:Em; [exact I| |lia].
  replace (e2 <=? 1024 - 53) with true by (symmetry; apply Z.leb_le; lia).
  split; [lia|].
  destruct m1 as [|q|q]; [rewrite Z.div_0_l in S2m; discriminate| |lia].
  pose proof (digits2_bounds q) as [_ Hq].
  pose proof (div_pow_digits (Zpos q) (e2 - e1) (Zpos (digits2_pos q)) m ltac:(lia) ltac:(lia) Hq
                (eq_sym S2m)) as Dm.
  simpl Zdigits2 in Hd1. lia.
Qed.

Lemma pos_iter_xO (p d : positive) : Zpos (Pos.iter xO p d) = Zpos p * 2 ^ Zpos d.
Proof.
  induction d as [|d IH] using Pos.peano_ind.
  - simpl. lia.
  - rewrite Pos.iter_succ, Pos2Z.inj_succ, Z.pow_succ_r by lia.
    change (Zpos (xO (Pos.iter xO p d))) with (2 * Zpos (Pos.iter xO p d)).
    rewrite IH. ring.
Qed.

Lemma digits2_mul (p q : positive) :
  Zpos (digits2_pos (p * q)) <= Zpos (digits2_pos p) + Zpos (digits2_pos q).
Proof.
  apply digits2_le. rewrite Pos2Z.inj_mul, Z.pow_add_r by lia.
  pose proof (digits2_bounds p). pose proof (digits2_bounds q).
  apply Z.mul_lt_mono_nonneg; lia.
Qed.

(** [float(z)] of an int below [2^512] in magnitude is a finite float
    below [2^513]. *)
Ltac round_case :=
  match goal with
  |- context [binary_round_aux 53 1024 ?s (Zpos ?m) ?e loc_Exact] =>
    pose proof (round_aux_finite s m e loc_Exact ltac:(lia) ltac:(lia)) as R;
    revert R; destruct (binary_round_aux 53 1024 s (Zpos m) e loc_Exact) as [s'|s'| |s' m' e'];
    intros R; try (exfalso; exact R);
    (eexists; split; [reflexivity|cbv beta iota; first [exact I|lia]])
  end.

(** [float(z)] of an int below [2^512] in magnitude is a finite float
    below [2^513]. *)
Lemma of_int_small (z : Z) :
  Z.abs z < 2 ^ 512 ->
  exists x, of_int z = Some x /\
    match x with
    | S754_zero _ => True
    | S754_finite _ m e => e <= 460 /\ Zpos (digits2_pos m) + e <= 513
    | _ => False
    end.
Proof.
  intros Hz. unfold of_int, binary_normalize, prec, emax.
  destruct z as [|p|p]; [eexists; split; [reflexivity|exact I]| |].
  all: simpl Z.abs in Hz; unfold binary_round, shl_align.
  all: pose proof (digits2_le p 512 Hz) as Dp.
  all: set (ex' := fexp 53 1024 (Zpos (digits2_pos p) + 0)).
  all: assert (Hex' : ex' = Zpos (digits2_pos p) - 53) by (unfold ex'; rewrite fexp_eq; lia).
  all: destruct (ex' - 0) as [|d|d] eqn:Ed; try round_case.
  all: assert (Hd : Zpos (digits2_pos (Pos.iter xO p d)) <= Zpos (digits2_pos p) + Zpos d)
         by (apply digits2_le; rewrite pos_iter_xO, Z.pow_add_r by lia;
             pose proof (digits2_bounds p); pose proof (pow2_pos (Zpos d)); nia).
  all: round_case.
Qed.

(** [int(n * f)] raises nothing when [|n| < 2^512] and [|f| < 2^256]. *)
Lemma int_mul_small (n : Z) (f : float) :
  Z.abs n < 2 ^ 512 -> float_below 256 f -> int_mul n f <> None.
Proof.
  intros Hn Hf. unfold int_mul.
  destruct (of_int_small n Hn) as [x [-> Hx]].
  unfold mul, SFmul, prec, emax.
  destruct x as [sx|sx| |sx mx ex]; try (exfalso; exact Hx);
    destruct f as [sy|sy| |sy my ey]; try (exfalso; exact Hf); try discriminate.
  unfold float_below in Hf. cbv beta iota in Hx, Hf. pose proof (digits2_mul mx my) as Dm.
  pose proof (round_aux_finite (xorb sx sy) (mx * my) (ex + ey) loc_Exact ltac:(lia) ltac:(lia)) as R.
  revert R. destruct (binary_round_aux 53 1024 _ _ _ _); intros R; try (exfalso; exact R); discriminate.
Qed.

Lemma int_mul_some (n : Z) (f : float) :
  Z.abs n < 2 ^ 512 -> float_below 256 f -> exists v, int_mul n f = Some v.
Proof.
  intros Hn Hf. pose proof (int_mul_small n f Hn Hf).
  destruct (int_mul n f); [eauto|congruence].
Qed.

Lemma assoc_some {A} (k : string) (l : list (string * A)) :
  existsb (String.eqb k) (map fst l) = true -> exists v, assoc k l = Some v.
Proof.
  induction l as [|[k' v'] r IH]; simpl; [discriminate|].
  destruct (String.eqb k k'); simpl; eauto.
Qed.

Lemma assoc_forallb {A} (P : string * A -> bool) (k : string) (l : list (string * A)) (v : A) :
  forallb P l = true -> assoc k l = Some v -> P (k, v) = true.
Proof.
  induction l as [|[k' v'] r IH]; simpl; [discriminate|].
  intros [Hp Hr]%andb_prop. destruct (String.eqb k k') eqn:E; [|auto].
  apply String.eqb_eq in E as ->. intros [= <-]. exact Hp.
Qed.

(** [str.format] raises no KeyError when every field is supplied. *)
Lemma format_some (t : template) (kw : list (string * string)) :
  fields_in t (map fst kw) = true -> exists s, format t kw = Some s.
Proof.
  induction t as [|[s|n] r IH]; simpl; [eauto| |].
  - intros H. destruct (IH H) as [rest ->]. eauto.
  - intros [Hn Hr]%andb_prop. destruct (assoc_some n kw Hn) as [v ->].
    destruct (IH Hr) as [rest ->]. eauto.
Qed.

(** The template looked up for key [k], or the default [d]. *)
Lemma phrase_ok (P : string * template -> bool) (ph : list (string * template)) (k : string) (d : template) :
  forallb P ph = true -> P (k, d) = true -> P (k, get (assoc k ph) d) = true.
Proof.
  intros H Hd. destruct (assoc k ph) eqn:E; simpl; [|exact Hd].
  exact (assoc_forallb P k ph t H E).
Qed.

Lemma get_ok {A} (P : A -> Prop) (o : option A) (d : A) :
  opt_ok P o -> P d -> P (get o d).
Proof. destruct o; simpl; auto. Qed.

Lemma opt_forallb_get {A} (P : A -> bool) (o : option (list A)) :
  opt_ok (fun l => forallb P l = true) o -> forallb P (get o []) = true.
Proof. destruct o; simpl; auto. Qed.

Lemma buyer_defaults_below :
  float_below 256 Buyer.default_accept_threshold_percentage /\
  float_below 256 Buyer.default_early_round_multiplier /\
  float_below 256 Buyer.default_mid_round_multiplier.
Proof. vm_compute. repeat split; discriminate. Qed.

Lemma seller_defaults_below :
  float_below 256 Seller.default_early_round_multiplier /\
  float_below 256 Seller.default_mid_round_multiplier.
Proof. vm_compute. repeat split; discriminate. Qed.

Lemma buyer_respond_some (cfg : Config) (ctx : NegotiationContext) (sp : Z) (sm : string) :
  buyer_config_ok cfg ->
  Z.abs (base_market_price (product ctx)) < 2 ^ 512 -> Z.abs sp < 2 ^ 512 ->
  Buyer.respond_to_seller_offer cfg ctx sp sm <> None.
Proof.
  intros (Ha & He & Hm & Hc) Hb Hs. destruct buyer_defaults_below as (Da & De & Dm).
  pose proof (opt_forallb_get _ _ Hc) as Hph.
  set (P := fun kt : string * template => fields_in (snd kt) ["price"]) in Hph.
  unfold Buyer.respond_to_seller_offer.
  destruct (int_mul_some _ _ Hb (get_ok _ _ _ Ha Da)) as [thr ->].
  destruct (_ && _); [discriminate|].
  destruct (_ <=? _).
  - destruct (format_some (get (assoc "final" (get (catchphrases cfg) [])) Buyer.final_default)
                [("price", show (Z.min sp (your_budget ctx)))]
                (phrase_ok P _ "final" Buyer.final_default Hph eq_refl)) as [msg ->].
    discriminate.
  - destruct (_ <=? _).
    + destruct (int_mul_some _ _ Hs (get_ok _ _ _ Hm Dm)) as [v ->].
      destruct (format_some (get (assoc "mid_round" (get (catchphrases cfg) [])) Buyer.mid_round_default)
                  [("price", show (Z.min v (your_budget ctx)))]
                  (phrase_ok P _ "mid_round" Buyer.mid_round_default Hph eq_refl)) as [msg ->].
      discriminate.
    + destruct (int_mul_some _ _ Hs (get_ok _ _ _ He De)) as [v ->].
      destruct (format_some (get (assoc "standard" (get (catchphrases cfg) [])) Buyer.standard_default)
                  [("price", show (Z.min v (your_budget ctx)))]
                  (phrase_ok P _ "standard" Buyer.standard_default Hph eq_refl)) as [msg ->].
      discriminate.
Qed.

Lemma seller_respond_some (self : Seller.CobraSeller) (bo r : Z) :
  seller_config_ok (Seller.config self) -> Z.abs bo < 2 ^ 512 ->
  Seller.respond_to_buyer self bo r <> None.
Proof.
  intros (He & Hm & Hc) Hb. destruct seller_defaults_below as (De & Dm).
  pose proof (opt_forallb_get _ _ Hc) as Hph.
  set (P := fun kt : string * template =>
              fields_in (snd kt)
                (if String.eqb (fst kt) "force_close" then ["price"] else ["price"; "extras"])) in Hph.
  unfold Seller.respond_to_buyer.
  set (ex := match get (extras (Seller.config self)) [] with [] => "" | _ => join ", " _ end).
  destruct (_ <=? bo); [discriminate|].
  destruct (_ <=? r).
  - destruct (format_some (get (assoc "force_close" (get (catchphrases (Seller.config self)) []))
                             Seller.force_close_default)
                [("price", show (Z.max (Seller.min_price self) bo))]
                (phrase_ok P _ "force_close" Seller.force_close_default Hph eq_refl)) as [msg ->].
    discriminate.
  - destruct (_ <=? r).
    + destruct (int_mul_some _ _ Hb (get_ok _ _ _ Hm Dm)) as [v ->].
      destruct (format_some (get (assoc "mid_round" (get (catchphrases (Seller.config self)) []))
                               Seller.mid_round_default)
                  [("price", show (Z.max (Seller.min_price self) v)); ("extras", ex)]
                  (phrase_ok P _ "mid_round" Seller.mid_round_default Hph eq_refl)) as [msg ->].
      discriminate.
    + destruct (int_mul_some _ _ Hb (get_ok _ _ _ He De)) as [v ->].
      destruct (format_some (get (assoc "early_round" (get (catchphrases (Seller.config self)) []))
                               Seller.early_round_default)
                  [("price", show (Z.max (Seller.min_price self) v)); ("extras", ex)]
                  (phrase_ok P _ "early_round" Seller.early_round_default Hph eq_refl)) as [msg ->].
      discriminate.
Qed.

(** [int(f)] of a nonnegative float is its floor. *)
Lemma to_int_floor (f : float) (z : Z) :
  float_nonneg f -> to_int f = Some z -> is_floor_of f z.
Proof.
  unfold float_nonneg, is_floor_of, to_int.
  destruct f as [s|s| |[|] m e]; cbv beta iota; intros Hf H; try contradiction; try discriminate.
  - injection H as <-. reflexivity.
  - injection H as <-.
    destruct (0 <=? e) eqn:He.
    + apply Z.leb_le in He. apply Z.shiftl_mul_pow2; exact He.
    + apply Z.leb_gt in He. rewrite Z.shiftl_div_pow2 by lia.
      pose proof (pow2_pos (- e) ltac:(lia)) as Hp.
      pose proof (Z.div_mod (Zpos m) (2 ^ (- e)) ltac:(lia)) as Hdm.
      pose proof (Z.mod_pos_bound (Zpos m) (2 ^ (- e)) Hp) as Hmod.
      revert Hdm Hmod. generalize (Zpos m / 2 ^ (- e)) (Zpos m mod 2 ^ (- e)).
      intros q r Hdm Hmod. nia.
Qed.

(** [int(n * f)] is the floor of the float product when it is nonnegative. *)
Lemma int_mul_floor (n : Z) (f : float) (x : float) (v : Z) :
  of_int n = Some x -> int_mul n f = Some v -> float_nonneg (mul x f) -> is_floor_of (mul x f) v.
Proof.
  unfold int_mul. intros Hx Hv Hn. rewrite Hx in Hv. exact (to_int_floor _ _ Hn Hv).
Qed.

(** ** Per-call decision rules *)

(** C5: [CobraSeller.respond_to_buyer] accepts exactly when the buyer's offer
    is at least [min_price], whatever the round; an acceptance returns the
    buyer's offer as the price, and an offer at or above [min_price] is
    always accepted (no exception is raised before the test). *)
Theorem seller_accepts_iff_offer_ge_min (self : Seller.CobraSeller) (buyer_offer round_num : Z) :
  (Seller.min_price self <= buyer_offer ->
     exists msg, Seller.respond_to_buyer self buyer_offer round_num = Some (buyer_offer, msg, true)) /\
  (forall price msg accepted,
     Seller.respond_to_buyer self buyer_offer round_num = Some (price, msg, accepted) ->
     (accepted = true <-> Seller.min_price self <= buyer_offer) /\
     (accepted = true -> price = buyer_offer)).
Proof.
  split.
  - intros Hle. unfold Seller.respond_to_buyer.
    apply Z.leb_le in Hle. rewrite Hle. eauto.
  - intros price msg accepted H. unfold Seller.respond_to_buyer in H.
    destruct (Seller.min_price self <=? buyer_offer) eqn:Hle.
    + injection H as <- <- <-. apply Z.leb_le in Hle. tauto.
    + apply Z.leb_gt in Hle. split_matches; split; intros; try discriminate; lia.
Qed.

(** C4: [CobraBuyer.respond_to_seller_offer] returns [ACCEPTED] exactly when
    the seller's price is at most the threshold [int(base_market_price *
    accept_threshold_percentage)] and at most the budget; it then returns
    the seller's price.  A price above the budget is never accepted.  The
    threshold is the floor of the float product [base * pct] whenever that
    product is nonnegative. *)
Theorem buyer_accepts_iff_threshold_and_budget (cfg : Config) (ctx : NegotiationContext)
    (seller_price : Z) (seller_message : string) :
  (forall threshold, buyer_threshold cfg ctx = Some threshold ->
     seller_price <= threshold -> seller_price <= your_budget ctx ->
     exists msg, Buyer.respond_to_seller_offer cfg ctx seller_price seller_message
                 = Some (ACCEPTED, seller_price, msg)) /\
  (forall status price msg,
     Buyer.respond_to_seller_offer cfg ctx seller_price seller_message = Some (status, price, msg) ->
     exists threshold, buyer_threshold cfg ctx = Some threshold /\
       (status = ACCEPTED <-> seller_price <= threshold /\ seller_price <= your_budget ctx) /\
       (status = ACCEPTED -> price = seller_price) /\
       (your_budget ctx < seller_price -> status <> ACCEPTED)) /\
  (forall x threshold,
     of_int (base_market_price (product ctx)) = Some x ->
     buyer_threshold cfg ctx = Some threshold ->
     let f := mul x (get (accept_threshold_percentage cfg) Buyer.default_accept_threshold_percentage) in
     float_nonneg f -> is_floor_of f threshold).
Proof.
  split; [|split].
  3:{ intros x t Hx Ht. exact (int_mul_floor _ _ _ _ Hx Ht). }
  all: unfold Buyer.respond_to_seller_offer, buyer_threshold.
  - intros t Ht H1 H2. rewrite Ht.
    apply Z.leb_le in H1, H2. rewrite H1, H2. simpl. eauto.
  - intros status price msg H.
    destruct (int_mul _ _) as [t|] eqn:Ht; [|discriminate].
    exists t. split; [reflexivity|].
    destruct ((seller_price <=? t) && (seller_price <=? your_budget ctx)) eqn:Hacc.
    + injection H as <- <- <-. apply andb_true_iff in Hacc.
      destruct Hacc as [H1 H2]. apply Z.leb_le in H1, H2. repeat split; auto; lia.
    + assert (Hn : ~ (seller_price <= t /\ seller_price <= your_budget ctx)).
      { intros [H1 H2]. apply Z.leb_le in H1, H2. rewrite H1, H2 in Hacc. discriminate. }
      split_matches; repeat split; intros; try discriminate; try tauto; lia.
Qed.

(** C6: when the acceptance rule does not fire, the buyer's price follows the
    phase formula.  The opening offer is [min(int(base * early), budget)];
    at round [r >= F] the counter is [min(seller_price, budget)] with status
    [ONGOING]; for [F - 3 <= r < F] it is [min(int(seller_price * mid),
    budget)]; for [r < F - 3] it is [min(int(seller_price * early), budget)]
    ([int] of a float product as the code computes it, its floor when the
    product is nonnegative by [int_mul_floor]; [F] the configured
    [force_close_round]). *)
Theorem buyer_phase_formula (cfg : Config) :
  (forall ctx offer msg,
     Buyer.generate_opening_offer cfg ctx = Some (offer, msg) ->
     exists v,
       int_mul (base_market_price (product ctx))
         (get (early_round_multiplier cfg) Buyer.default_early_round_multiplier) = Some v /\
       offer = Z.min v (your_budget ctx)) /\
  (forall ctx seller_price seller_message threshold status price msg,
     buyer_threshold cfg ctx = Some threshold ->
     ~ (seller_price <= threshold /\ seller_price <= your_budget ctx) ->
     Buyer.respond_to_seller_offer cfg ctx seller_price seller_message = Some (status, price, msg) ->
     status = ONGOING /\
     (buyer_force_round cfg <= current_round ctx ->
        price = Z.min seller_price (your_budget ctx)) /\
     (buyer_force_round cfg - 3 <= current_round ctx < buyer_force_round cfg ->
        exists v,
          int_mul seller_price
            (get (mid_round_multiplier cfg) Buyer.default_mid_round_multiplier) = Some v /\
          price = Z.min v (your_budget ctx)) /\
     (current_round ctx < buyer_force_round cfg - 3 ->
        exists v,
          int_mul seller_price
            (get (early_round_multiplier cfg) Buyer.default_early_round_multiplier) = Some v /\
          price = Z.min v (your_budget ctx))).
Proof.
  split.
  - intros ctx offer msg H. unfold Buyer.generate_opening_offer in H.
    split_matches. eauto.
  - intros ctx sp sm t status price msg Ht Hn H.
    unfold Buyer.respond_to_seller_offer in H. unfold buyer_threshold in Ht.
    unfold buyer_force_round. rewrite Ht in H.
    destruct ((sp <=? t) && (sp <=? your_budget ctx)) eqn:Hacc.
    { exfalso. apply Hn. apply andb_true_iff in Hacc.
      destruct Hacc as [H1 H2]. apply Z.leb_le in H1, H2. tauto. }
    split_matches;
      repeat match goal with
      | H : (_ <=? _) = true |- _ => apply Z.leb_le in H
      | H : (_ <=? _) = false |- _ => apply Z.leb_gt in H
      end;
      repeat split; intros; eauto; lia.
Qed.

(** C10: [CobraSeller.respond_to_buyer] renders its counter-offer message
    before the opening-price clamp.  A counter's message is the catchphrase
    of the round's phase ([force_close], [mid_round] or [early_round], or
    its default) formatted with [price] bound to the pre-clamp counter
    [pre]: [max(min_price, buyer_offer)] in the force-close phase,
    [max(min_price, int(buyer_offer * multiplier))] before it.  The
    returned price is [pre] clamped by [opening_price], and the two differ
    exactly when [opening_price] is set and below [pre].  An acceptance
    message names the returned price. *)
Theorem seller_message_uses_pre_clamp_counter (self : Seller.CobraSeller) (buyer_offer round_num : Z) :
  let cfg := Seller.config self in
  let phrases := get (catchphrases cfg) [] in
  let F := get (force_close_round cfg) Seller.default_force_close_round in
  let extras_list := get (extras cfg) [] in
  let ex := match extras_list with [] => "" | _ => join ", " extras_list end in
  (forall price msg,
     Seller.respond_to_buyer self buyer_offer round_num = Some (price, msg, true) ->
     msg = "You have a deal at ₹" ++ show price ++ "!") /\
  (forall price msg,
     Seller.respond_to_buyer self buyer_offer round_num = Some (price, msg, false) ->
     exists pre,
       Seller.min_price self <= pre /\
       price = Seller.clamp (Seller.opening_price self) pre /\
       (price <> pre <-> exists o, Seller.opening_price self = Some o /\ o < pre) /\
       (F <= round_num ->
          pre = Z.max (Seller.min_price self) buyer_offer /\
          format (get (assoc "force_close" phrases) Seller.force_close_default)
            [("price", show pre)] = Some msg) /\
       (F - 3 <= round_num < F ->
          (exists v, int_mul buyer_offer
                       (get (mid_round_multiplier cfg) Seller.default_mid_round_multiplier) = Some v /\
                     pre = Z.max (Seller.min_price self) v) /\
          format (get (assoc "mid_round" phrases) Seller.mid_round_default)
            [("price", show pre); ("extras", ex)] = Some msg) /\
       (round_num < F - 3 ->
          (exists v, int_mul buyer_offer
                       (get (early_round_multiplier cfg) Seller.default_early_round_multiplier) = Some v /\
                     pre = Z.max (Seller.min_price self) v) /\
          format (get (assoc "early_round" phrases) Seller.early_round_default)
            [("price", show pre); ("extras", ex)] = Some msg)).
Proof.
  assert (Hclamp : forall op pre, Seller.clamp op pre <> pre <->
                     exists o, op = Some o /\ o < pre).
  { intros [o|] pre; simpl; split.
    - intros H. exists o. split; [reflexivity|]. lia.
    - intros [o' [[= <-] Ho]]. lia.
    - intros H. congruence.
    - intros [o' [H _]]. discriminate. }
  cbv zeta. split; intros price msg H; unfold Seller.respond_to_buyer in H; cbv zeta in H.
  - split_matches; reflexivity.
  - destruct (Seller.min_price self <=? buyer_offer) eqn:Ha; [discriminate|].
    apply Z.leb_gt in Ha.
    destruct (get (force_close_round (Seller.config self)) Seller.default_force_close_round
                <=? round_num) eqn:Hf.
    + apply Z.leb_le in Hf.
      destruct (format _ _) as [m|] eqn:Hm; [|discriminate]. injection H as <- <-.
      exists (Z.max (Seller.min_price self) buyer_offer).
      split; [lia|]. split; [reflexivity|]. split; [apply Hclamp|].
      split; [auto|]. split; intros; exfalso; lia.
    + apply Z.leb_gt in Hf.
      destruct (get (force_close_round (Seller.config self)) Seller.default_force_close_round - 3
                  <=? round_num) eqn:Hm3.
      * apply Z.leb_le in Hm3.
        destruct (int_mul _ _) as [v|] eqn:Hv; [|discriminate].
        destruct (format _ _) as [m|] eqn:Hm; [|discriminate]. injection H as <- <-.
        exists (Z.max (Seller.min_price self) v).
        split; [lia|]. split; [reflexivity|]. split; [apply Hclamp|].
        split; [intros; exfalso; lia|]. split; [eauto|]. intros; exfalso; lia.
      * apply Z.leb_gt in Hm3.
        destruct (int_mul _ _) as [v|] eqn:Hv; [|discriminate].
        destruct (format _ _) as [m|] eqn:Hm; [|discriminate]. injection H as <- <-.
        exists (Z.max (Seller.min_price self) v).
        split; [lia|]. split; [reflexivity|]. split; [apply Hclamp|].
        split; [intros; exfalso; lia|]. split; [intros; exfalso; lia|]. eauto.
Qed.

(** ** Facts about single calls, shared by the session proofs *)

Lemma opening_offer_le_budget (cfg : Config) (ctx : NegotiationContext) (offer : Z) (msg : string) :
  Buyer.generate_opening_offer cfg ctx = Some (offer, msg) -> offer <= your_budget ctx.
Proof. unfold Buyer.generate_opening_offer. intros H. split_matches. lia. Qed.

Lemma respond_price_le_budget (cfg : Config) (ctx : NegotiationContext) (sp : Z) (sm : string)
    (status : DealStatus) (price : Z) (msg : string) :
  Buyer.respond_to_seller_offer cfg ctx sp sm = Some (status, price, msg) ->
  price <= your_budget ctx /\ (status = ACCEPTED -> price = sp).
Proof.
  unfold Buyer.respond_to_seller_offer. intros H. split_matches;
    repeat match goal with
    | H : (_ && _) = true |- _ => apply andb_true_iff in H; destruct H
    | H : (_ <=? _) = true |- _ => apply Z.leb_le in H
    end;
    split; intros; try discriminate; lia.
Qed.

Lemma respond_to_buyer_accept (self : Seller.CobraSeller) (bo r price : Z) (msg : string) :
  Seller.respond_to_buyer self bo r = Some (price, msg, true) ->
  price = bo /\ Seller.min_price self <= bo.
Proof.
  unfold Seller.respond_to_buyer. intros H. split_matches.
  apply Z.leb_le in Heqb. auto.
Qed.

Lemma respond_to_buyer_counter (self : Seller.CobraSeller) (bo r price : Z) (msg : string) :
  Seller.respond_to_buyer self bo r = Some (price, msg, false) ->
  exists pre, Seller.min_price self <= pre /\ price = Seller.clamp (Seller.opening_price self) pre.
Proof.
  unfold Seller.respond_to_buyer. intros H. split_matches; eexists; split; eauto; lia.
Qed.

Lemma clamp_bounds (op : option Z) (m pre : Z) :
  m <= pre ->
  (op = None -> m <= Seller.clamp op pre) /\
  (forall o, op = Some o -> Z.min m o <= Seller.clamp op pre /\ Seller.clamp op pre <= o).
Proof.
  intros Hm. destruct op as [o|]; simpl; split; intros; try discriminate.
  - injection H as <-. lia.
  - lia.
Qed.

Lemma Forall_snoc {A} (P : A -> Prop) (l : list A) (x : A) :
  Forall P l -> P x -> Forall P (app l [x]).
Proof. intros. apply Forall_app. auto. Qed.

Create HintDb session.
#[local] Hint Resolve Forall_snoc : session.

(** ** Session invariants *)
Section Sessions.
Import Driver.

Lemma record_buyer_fields (c : NegotiationContext) (o : Z) (m : string) :
  your_budget (record_buyer c o m) = your_budget c /\
  current_round (record_buyer c o m) = current_round c /\
  seller_offers (record_buyer c o m) = seller_offers c /\
  your_offers (record_buyer c o m) = app (your_offers c) [o].
Proof. repeat split. Qed.

Lemma record_seller_fields (c : NegotiationContext) (o : Z) (m : string) :
  your_budget (record_seller c o m) = your_budget c /\
  current_round (record_seller c o m) = current_round c /\
  seller_offers (record_seller c o m) = app (seller_offers c) [o] /\
  your_offers (record_seller c o m) = your_offers c.
Proof. repeat split. Qed.

Local Ltac finish :=
  repeat match goal with
  | H : Some _ = Some _ |- _ => injection H as; subst
  | H : Some _ = None |- _ => discriminate H
  | H : None = Some _ |- _ => discriminate H
  | H : true = true -> _ |- _ => specialize (H eq_refl)
  end; simpl in *; auto with session; try lia.

Local Ltac loop_exit :=
  match goal with
  | H : Some _ = Some _, Hc : (negb _ && _) = false |- _ =>
      injection H as <-; simpl;
      apply andb_false_iff in Hc; destruct Hc as [Hc|Hc];
      [ first [apply negb_false_iff in Hc; subst | idtac]
      | apply Z.ltb_ge in Hc ];
      try match goal with acc : bool |- _ => destruct acc end;
      repeat split; intros; finish
  end.

(** The buyer-first loop, against a seller that has no opening price. *)
Lemma buyer_loop_inv (fuel : nat) (bcfg : Config) (seller : Seller.CobraSeller) :
  Seller.opening_price seller = None ->
  forall c so sm acc out,
  buyer_loop fuel bcfg seller c so sm acc = Some out ->
  Forall (fun x => x <= your_budget c) (your_offers c) ->
  Forall (fun x => Seller.min_price seller <= x) (seller_offers c) ->
  Seller.min_price seller <= so ->
  (acc = true -> so <= your_budget c) ->
  current_round c <= 10 ->
  your_budget (final_context out) = your_budget c /\
  final_seller out = seller /\
  Forall (fun x => x <= your_budget c) (your_offers (final_context out)) /\
  Forall (fun x => Seller.min_price seller <= x) (seller_offers (final_context out)) /\
  current_round (final_context out) <= 10 /\
  (deal out = None -> current_round (final_context out) = 10) /\
  (forall w p, deal out = Some (w, p) -> Seller.min_price seller <= p <= your_budget c).
Proof.
  intros Hop. induction fuel as [|fuel IH]; intros c so sm acc out H Hy Hs Hso Hacc Hr;
    simpl in H; destruct (negb acc && (current_round c <? 10)) eqn:Hc.
  - discriminate.
  - loop_exit.
  - apply andb_true_iff in Hc. destruct Hc as [Hna Hlt]. apply Z.ltb_lt in Hlt.
    destruct (Buyer.respond_to_seller_offer _ _ _ _) as [[[st bo] bm]|] eqn:Hb;
      [|discriminate].
    apply respond_price_le_budget in Hb as [Hbo Hst]. simpl in Hbo.
    destruct st;
      [ | injection H as <-; simpl; specialize (Hst eq_refl); subst bo;
          repeat split; intros; finish | ];
      (destruct (Seller.respond_to_buyer _ _ _) as [[[so' sm'] acc']|] eqn:Hsr; [|discriminate];
       destruct acc';
       [ injection H as <-; apply respond_to_buyer_accept in Hsr as [-> Hm];
         simpl; repeat split; intros; finish
       | apply respond_to_buyer_counter in Hsr as [pre [Hpre ->]];
         rewrite Hop in H; simpl in H;
         apply IH in H; simpl; auto with session; try lia; discriminate ]).
  - loop_exit.
Qed.

(** The seller-first loop, against a seller whose opening price is [o]. *)
Lemma seller_loop_inv (fuel : nat) (bcfg : Config) (seller : Seller.CobraSeller) (o : Z) :
  Seller.opening_price seller = Some o ->
  forall c bo acc out,
  seller_loop fuel bcfg seller c bo acc = Some out ->
  acc = false ->
  Forall (fun x => x <= your_budget c) (your_offers c) ->
  bo <= your_budget c ->
  Forall (fun x => Z.min (Seller.min_price seller) o <= x /\ x <= o) (seller_offers c) ->
  current_round c <= 10 ->
  your_budget (final_context out) = your_budget c /\
  final_seller out = seller /\
  Forall (fun x => x <= your_budget c) (your_offers (final_context out)) /\
  Forall (fun x => Z.min (Seller.min_price seller) o <= x) (seller_offers (final_context out)) /\
  (exists l, seller_offers (final_context out) = app (seller_offers c) l) /\
  offers_below_opening o out /\
  current_round (final_context out) <= 10 /\
  (deal out = None -> current_round (final_context out) = 10) /\
  (forall w p, deal out = Some (w, p) ->
     p <= your_budget c /\ (Seller.min_price seller <= o -> Seller.min_price seller <= p)).
Proof.
  intros Hop. unfold offers_below_opening.
  induction fuel as [|fuel IH]; intros c bo acc out H Hf Hy Hbo Hs Hr;
    simpl in H; destruct (negb acc && (current_round c <? 10)) eqn:Hc.
  - discriminate.
  - injection H as <-. simpl. apply andb_false_iff in Hc.
    assert (current_round c = 10 \/ acc = true) as Hend.
    { destruct Hc as [Hc|Hc]; [apply negb_false_iff in Hc; auto|apply Z.ltb_ge in Hc; lia]. }
    repeat split; intros; try finish.
    + eapply Forall_impl; [|exact Hs]. simpl. tauto.
    + exists []. symmetry. apply app_nil_r.
    + eapply Forall_impl; [|exact Hs]. simpl. tauto.
    + destruct Hend; [lia|congruence].
  - apply andb_true_iff in Hc. destruct Hc as [Hna Hlt]. apply Z.ltb_lt in Hlt.
    destruct (Seller.respond_to_buyer _ _ _) as [[[so sm] acc']|] eqn:Hsr; [|discriminate].
    destruct acc'.
    + injection H as <-. apply respond_to_buyer_accept in Hsr as [-> Hm]. simpl.
      repeat split; intros; finish.
      * apply Forall_snoc; [|lia]. eapply Forall_impl; [|exact Hs]. simpl. tauto.
      * exists [bo]. reflexivity.
      * exists (seller_offers c). split; [reflexivity|].
        eapply Forall_impl; [|exact Hs]. simpl. tauto.
    + apply respond_to_buyer_counter in Hsr as [pre [Hpre Hso]].
      rewrite Hop in Hso. simpl in Hso.
      destruct (Buyer.respond_to_seller_offer _ _ _ _) as [[[st bo'] bm]|] eqn:Hb;
        [|discriminate].
      apply respond_price_le_budget in Hb as [Hbo' Hst]. simpl in Hbo'.
      assert (Hs' : Forall (fun x => Z.min (Seller.min_price seller) o <= x <= o)
                      (app (seller_offers c) [so])) by (apply Forall_snoc; auto; lia).
      assert (Hy' : Forall (fun x => x <= your_budget c) (app (your_offers c) [bo']))
        by auto with session.
      destruct st;
        [ | injection H as <-; simpl; specialize (Hst eq_refl); subst bo';
            repeat split; intros; finish;
            [ eapply Forall_impl; [|exact Hs']; simpl; tauto
            | exists [so]; reflexivity
            | eapply Forall_impl; [|exact Hs']; simpl; tauto ] | ];
        (specialize (IH _ _ _ _ H eq_refl Hy' Hbo' Hs' ltac:(simpl; lia));
         destruct IH as (Hb1 & Hb2 & Hb3 & Hb4 & [l Hl] & Hb5 & Hb6 & Hb7 & Hb8);
         refine (conj Hb1 (conj Hb2 (conj Hb3 (conj Hb4
                   (conj _ (conj Hb5 (conj Hb6 (conj Hb7 Hb8))))))));
         exists (so :: l); rewrite Hl; simpl; rewrite <- app_assoc; reflexivity).
  - injection H as <-. simpl. apply andb_false_iff in Hc.
    assert (current_round c = 10 \/ acc = true) as Hend.
    { destruct Hc as [Hc|Hc]; [apply negb_false_iff in Hc; auto|apply Z.ltb_ge in Hc; lia]. }
    repeat split; intros; try finish.
    + eapply Forall_impl; [|exact Hs]. simpl. tauto.
    + exists []. symmetry. apply app_nil_r.
    + eapply Forall_impl; [|exact Hs]. simpl. tauto.
    + destruct Hend; [lia|congruence].
Qed.

(** The loop bounds are not reached: every iteration increments the round
    counter, so [10 - round] unfoldings decide the loop and any larger
    fuel gives the same result. *)
Lemma buyer_loop_fuel (fuel1 fuel2 : nat) (bcfg : Config) (seller : Seller.CobraSeller) :
  forall c so sm acc,
  (Z.to_nat (10 - current_round c) <= fuel1)%nat ->
  (Z.to_nat (10 - current_round c) <= fuel2)%nat ->
  buyer_loop fuel1 bcfg seller c so sm acc = buyer_loop fuel2 bcfg seller c so sm acc.
Proof.
  revert fuel2. induction fuel1 as [|f1 IH]; intros [|f2] c so sm acc H1 H2;
    simpl; destruct (negb acc && (current_round c <? 10)) eqn:Hc; auto;
    apply andb_true_iff in Hc; destruct Hc as [_ Hc]; apply Z.ltb_lt in Hc; try lia.
  destruct (Buyer.respond_to_seller_offer _ _ _ _) as [[[st bo] bm]|]; auto.
  destruct st; auto;
    (destruct (Seller.respond_to_buyer _ _ _) as [[[so' sm'] []]|]; auto;
     apply IH; cbn [current_round record_seller record_buyer next_round]; lia).
Qed.

Lemma seller_loop_fuel (fuel1 fuel2 : nat) (bcfg : Config) (seller : Seller.CobraSeller) :
  forall c bo acc,
  (Z.to_nat (10 - current_round c) <= fuel1)%nat ->
  (Z.to_nat (10 - current_round c) <= fuel2)%nat ->
  seller_loop fuel1 bcfg seller c bo acc = seller_loop fuel2 bcfg seller c bo acc.
Proof.
  revert fuel2. induction fuel1 as [|f1 IH]; intros [|f2] c bo acc H1 H2;
    simpl; destruct (negb acc && (current_round c <? 10)) eqn:Hc; auto;
    apply andb_true_iff in Hc; destruct Hc as [_ Hc]; apply Z.ltb_lt in Hc; try lia.
  destruct (Seller.respond_to_buyer _ _ _) as [[[so sm] []]|]; auto.
  destruct (Buyer.respond_to_seller_offer _ _ _ _) as [[[st bo'] bm]|]; auto.
  destruct st; auto; apply IH; cbn [current_round record_seller record_buyer next_round]; lia.
Qed.

Lemma get_opening_price_spec (self self' : Seller.CobraSeller) (p : Product) (o : Z) (msg : string) :
  Seller.get_opening_price self p = Some (self', (o, msg)) ->
  self' = Seller.mkSeller (Seller.min_price self) (Seller.config self) (Some o) /\
  seller_opening (Seller.config self) p = Some o.
Proof.
  unfold Seller.get_opening_price, seller_opening. intros H. split_matches. auto.
Qed.

(** Everything the buyer-first driver guarantees. *)
Lemma buyer_session_facts (bcfg scfg : Config) (seller_min : Z) (p : Product) (budget : Z)
    (out : Outcome) :
  test_buyer_scenarios bcfg scfg seller_min p budget = Some out ->
  Seller.opening_price (final_seller out) = None /\
  Forall (fun x => x <= budget) (your_offers (final_context out)) /\
  Forall (fun x => seller_min <= x) (seller_offers (final_context out)) /\
  current_round (final_context out) <= 10 /\
  (deal out = None -> current_round (final_context out) = 10) /\
  (forall w price, deal out = Some (w, price) -> seller_min <= price <= budget).
Proof.
  unfold test_buyer_scenarios. intros H.
  destruct (Buyer.generate_opening_offer _ _) as [[bo bm]|] eqn:Hb; [|discriminate].
  apply opening_offer_le_budget in Hb. simpl in Hb.
  destruct (Seller.respond_to_buyer _ _ _) as [[[so sm] acc]|] eqn:Hs; [|discriminate].
  assert (Hso : seller_min <= so /\ (acc = true -> so <= budget)).
  { destruct acc.
    - apply respond_to_buyer_accept in Hs as [-> Hm]. simpl in Hm. auto.
    - apply respond_to_buyer_counter in Hs as [pre [Hpre ->]]. simpl in *.
      split; [lia|discriminate]. }
  assert (P1 : Forall (fun x => x <= budget) [bo]) by (constructor; auto).
  assert (P2 : Forall (fun x => seller_min <= x) [so]) by (constructor; [lia|auto]).
  pose proof (buyer_loop_inv 10 bcfg (Seller.init seller_min scfg) eq_refl _ _ _ _ _ H
                P1 P2 (proj1 Hso) (proj2 Hso) ltac:(simpl; lia)) as HL.
  cbn [your_budget record_seller record_buyer start Seller.min_price Seller.init] in HL.
  destruct HL as (_ & -> & E3 & E4 & E5 & E6 & E7). auto 6.
Qed.

(** Everything the seller-first driver guarantees. *)
Lemma seller_session_facts (bcfg scfg : Config) (seller_min : Z) (p : Product) (budget : Z)
    (out : Outcome) :
  test_seller_scenarios bcfg scfg seller_min p budget = Some out ->
  exists o,
    seller_opening scfg p = Some o /\
    Seller.opening_price (final_seller out) = Some o /\
    Forall (fun x => x <= budget) (your_offers (final_context out)) /\
    (exists l, seller_offers (final_context out) = o :: l) /\
    Forall (fun x => Z.min seller_min o <= x) (seller_offers (final_context out)) /\
    offers_below_opening o out /\
    current_round (final_context out) <= 10 /\
    (deal out = None -> current_round (final_context out) = 10) /\
    (forall w price, deal out = Some (w, price) ->
       price <= budget /\ (seller_min <= o -> seller_min <= price)).
Proof.
  unfold test_seller_scenarios. intros H.
  destruct (Seller.get_opening_price _ _) as [[seller [o om]]|] eqn:Ho; [|discriminate].
  apply get_opening_price_spec in Ho as [-> Ho]. simpl in Ho.
  exists o. split; [exact Ho|].
  destruct (Buyer.respond_to_seller_offer _ _ _ _) as [[[st bo] bm]|] eqn:Hb; [|discriminate].
  apply respond_price_le_budget in Hb as [Hbo Hst]. simpl in Hbo.
  destruct st.
  2:{ injection H as <-. specialize (Hst eq_refl). subst bo. unfold offers_below_opening.
      simpl. repeat split; intros; try discriminate;
        repeat match goal with H : Some _ = Some _ |- _ => injection H as; subst end;
        try lia; try (exists []; reflexivity); repeat constructor; lia. }
  all: assert (P1 : Forall (fun x => x <= budget) [bo]) by (constructor; auto);
    assert (P2 : Forall (fun x => Z.min seller_min o <= x <= o) [o]) by (constructor; [lia|auto]);
    pose proof (seller_loop_inv 10 bcfg (Seller.mkSeller seller_min scfg (Some o)) o eq_refl
                  _ _ _ _ H eq_refl P1 Hbo P2 ltac:(simpl; lia)) as HL;
    cbn [your_budget record_seller record_buyer start Seller.min_price seller_offers] in HL;
    destruct HL as (_ & -> & E3 & E4 & [l El] & E5 & E6 & E7 & E8);
    split; [reflexivity|]; split; [exact E3|]; split; [exists l; exact El|]; auto.
Qed.

End Sessions.

(** The fallback of an absent key is the documented default. *)
Lemma buyer_fallback (cfg : Config) (ctx : NegotiationContext) (sp : Z) (sm : string) :
  Buyer.respond_to_seller_offer cfg ctx sp sm =
  Buyer.respond_to_seller_offer (buyer_with_defaults cfg) ctx sp sm.
Proof. destruct cfg as [? [] [] [] [] [] ?]; reflexivity. Qed.

Lemma seller_fallback (self : Seller.CobraSeller) (bo r : Z) :
  Seller.respond_to_buyer self bo r =
  Seller.respond_to_buyer
    (Seller.mkSeller (Seller.min_price self) (seller_with_defaults (Seller.config self))
       (Seller.opening_price self)) bo r.
Proof. destruct self as [? [? ? [] [] [] [] []] ?]; reflexivity. Qed.

(** ** Claims about whole sessions *)

(** C1: a deal closed in the buyer-first driver has its price in
    [[seller_min, budget]].  In the seller-first driver the price is at
    most the budget, and at least [seller_min] whenever the seller's opening
    price [int(base * opening_multiplier)] is: the one way below the
    seller's minimum is an opening price under [min_price], which
    [get_opening_price] does not floor at [min_price] as every counter of
    [respond_to_buyer] does. *)
Theorem deal_price_within_bounds (bcfg scfg : Config) (seller_min : Z) (p : Product) (budget : Z)
    (out : Driver.Outcome) (w : Driver.Closer) (price : Z) :
  Driver.deal out = Some (w, price) ->
  (Driver.test_buyer_scenarios bcfg scfg seller_min p budget = Some out ->
     seller_min <= price <= budget) /\
  (Driver.test_seller_scenarios bcfg scfg seller_min p budget = Some out ->
     price <= budget /\
     exists o, seller_opening scfg p = Some o /\ (seller_min <= o -> seller_min <= price)).
Proof.
  intros Hd. split; intros H.
  - apply buyer_session_facts in H as (_ & _ & _ & _ & _ & H). exact (H w price Hd).
  - apply seller_session_facts in H as (o & Ho & _ & _ & _ & _ & _ & _ & _ & H).
    destruct (H w price Hd) as [H1 H2]. split; [exact H1|]. exists o. auto.
Qed.

(** C2 (as the code behaves): every offer the buyer makes, in either
    driver, is at most the budget.  The offers need not increase. *)
Theorem buyer_offers_within_budget (bcfg scfg : Config) (seller_min : Z) (p : Product) (budget : Z)
    (out : Driver.Outcome) :
  Driver.test_buyer_scenarios bcfg scfg seller_min p budget = Some out \/
  Driver.test_seller_scenarios bcfg scfg seller_min p budget = Some out ->
  Forall (fun x => x <= budget) (your_offers (Driver.final_context out)).
Proof.
  intros [H|H].
  - apply buyer_session_facts in H as (_ & H & _). exact H.
  - apply seller_session_facts in H as (o & _ & _ & H & _). exact H.
Qed.

(** C3 (as the code behaves): the seller's offers need not decrease.  In
    the buyer-first driver every seller offer is at least [seller_min].  In
    the seller-first driver the offers start with the opening price [o]
    and are all at most [o], except a last offer that is the buyer's offer
    the seller accepted; when [o] is at least [seller_min], every offer is
    at least [seller_min]. *)
Theorem seller_offer_bounds (bcfg scfg : Config) (seller_min : Z) (p : Product) (budget : Z)
    (out : Driver.Outcome) :
  (Driver.test_buyer_scenarios bcfg scfg seller_min p budget = Some out ->
     Forall (fun x => seller_min <= x) (seller_offers (Driver.final_context out))) /\
  (Driver.test_seller_scenarios bcfg scfg seller_min p budget = Some out ->
     exists o l,
       seller_opening scfg p = Some o /\
       seller_offers (Driver.final_context out) = o :: l /\
       offers_below_opening o out /\
       (seller_min <= o ->
          Forall (fun x => seller_min <= x) (seller_offers (Driver.final_context out)))).
Proof.
  split; intros H.
  - apply buyer_session_facts in H as (_ & _ & H & _). exact H.
  - apply seller_session_facts in H as (o & Ho & _ & _ & [l El] & Hmin & Hbelow & _).
    exists o, l. repeat split; auto.
    intros Hle. eapply Forall_impl; [|exact Hmin]. simpl. lia.
Qed.

(** C8: in both drivers the round counter ends at most at 10, and a
    session that ends without a deal has used all 10 rounds. *)
Theorem session_rounds_bounded (bcfg scfg : Config) (seller_min : Z) (p : Product) (budget : Z)
    (out : Driver.Outcome) :
  Driver.test_buyer_scenarios bcfg scfg seller_min p budget = Some out \/
  Driver.test_seller_scenarios bcfg scfg seller_min p budget = Some out ->
  current_round (Driver.final_context out) <= 10 /\
  (Driver.deal out = None -> current_round (Driver.final_context out) = 10).
Proof.
  intros [H|H].
  - apply buyer_session_facts in H as (_ & _ & _ & H1 & H2 & _). auto.
  - apply seller_session_facts in H as (o & _ & _ & _ & _ & _ & _ & H1 & H2 & _). auto.
Qed.

(** C7 (as the code behaves): [get_opening_price] returns
    [int(float(base) * opening_multiplier)], the truncation of the float
    product, which for a nonnegative product is its floor (not the nearest
    integer). *)
Theorem opening_price_truncates (self self' : Seller.CobraSeller) (p : Product) (o : Z) (msg : string) :
  Seller.get_opening_price self p = Some (self', (o, msg)) ->
  exists x,
    of_int (base_market_price p) = Some x /\
    let f := mul x (get (opening_multiplier (Seller.config self)) Seller.default_opening_multiplier) in
    to_int f = Some o /\ (float_nonneg f -> is_floor_of f o).
Proof.
  unfold Seller.get_opening_price, int_mul. intros H.
  destruct (of_int (base_market_price p)) as [x|] eqn:Hx; [|discriminate].
  exists x. split; [reflexivity|].
  destruct (to_int _) as [v|] eqn:Hv; [|discriminate].
  destruct (format _ _); [|discriminate]. injection H as _ <- _.
  split; [reflexivity|]. intros Hn. exact (to_int_floor _ _ Hn Hv).
Qed.

(** C9: an absent key of [accept_threshold_percentage],
    [early_round_multiplier], [mid_round_multiplier], [force_close_round],
    [catchphrases] or [extras] behaves exactly as its documented default
    ([0.9], [0.85] / [1.1], [0.92] / [1.04], [10], no catchphrases, no
    extras).  Both response methods then raise nothing when the keys that
    are present are well formed (finite multipliers below [2^256],
    catchphrase templates using only the fields the method supplies) and the
    prices are below [2^512] in magnitude ([int * float] overflows beyond
    the float range whatever the configuration). *)
Theorem respond_total_with_default_fallback :
  (forall cfg ctx sp sm,
     Buyer.respond_to_seller_offer cfg ctx sp sm =
     Buyer.respond_to_seller_offer (buyer_with_defaults cfg) ctx sp sm) /\
  (forall self bo r,
     Seller.respond_to_buyer self bo r =
     Seller.respond_to_buyer
       (Seller.mkSeller (Seller.min_price self) (seller_with_defaults (Seller.config self))
          (Seller.opening_price self)) bo r) /\
  (forall cfg ctx sp sm,
     buyer_config_ok cfg ->
     Z.abs (base_market_price (product ctx)) < 2 ^ 512 -> Z.abs sp < 2 ^ 512 ->
     Buyer.respond_to_seller_offer cfg ctx sp sm <> None) /\
  (forall self bo r,
     seller_config_ok (Seller.config self) -> Z.abs bo < 2 ^ 512 ->
     Seller.respond_to_buyer self bo r <> None).
Proof.
  split; [exact buyer_fallback|].
  split; [exact seller_fallback|].
  split; [exact buyer_respond_some|exact seller_respond_some].
Qed.

(** ** Counterexamples *)

(** C1: with the driver's product, [min_price] and budget (base
    [180000], [160000], [220000]), a seller whose [opening_multiplier] is
    [0.85] opens at [153000], below its [min_price]; the default buyer
    accepts it. *)
Lemma deal_below_seller_min_cex :
  option_map (fun out => (seller_offers (Driver.final_context out), Driver.deal out))
    (Driver.test_seller_scenarios empty_config seller_cfg_low_opening 160000 (mangoes 180000) 220000)
  = Some ([153000], Some (Driver.ByBuyer, 153000)) /\ 153000 < 160000.
Proof. split; [vm_compute; reflexivity|lia]. Qed.

(** C2: with the default configurations the buyer's second offer is below
    its first. *)
Lemma buyer_offers_decrease_cex :
  option_map (fun out => your_offers (Driver.final_context out))
    (Driver.test_buyer_scenarios empty_config empty_config 160000 (mangoes 180000) 220000)
  = Some [153000; 143055; 160000] /\ 143055 < 153000.
Proof. split; [vm_compute; reflexivity|lia]. Qed.

(** C3: (a) with [force_close_round] [14] the seller's offers rise from
    [100] to [101]; (b) a buyer with [early_round_multiplier] [1.5] offers
    [180] above the seller's opening [120], and the accepted offer is
    recorded as the seller's last offer. *)
Lemma seller_offers_out_of_bounds_cex :
  option_map (fun out => seller_offers (Driver.final_context out))
    (Driver.test_buyer_scenarios empty_config seller_cfg_force_close_14 100 (mangoes 100) 200)
  = Some [100; 100; 100; 100; 100; 100; 101; 101; 101; 101] /\
  option_map (fun out => (seller_offers (Driver.final_context out), Driver.deal out))
    (Driver.test_seller_scenarios buyer_cfg_early_15 empty_config 100 (mangoes 100) 1000)
  = Some ([120; 180], Some (Driver.BySeller, 180)) /\ 120 < 180.
Proof. repeat split; try lia; vm_compute; reflexivity. Qed.

(** C7: for a base price of [3] the float product [3 * 1.2] is
    [3.5999999999999996]; [get_opening_price] returns [3], while rounding to
    the nearest integer gives [4]. *)
Lemma opening_price_not_rounded_cex :
  option_map (fun r => fst (snd r))
    (Seller.get_opening_price (Seller.init 0 empty_config) (mangoes 3)) = Some 3 /\
  option_map (fun x => mul x Seller.default_opening_multiplier) (of_int 3)
    = Some (S754_finite false 8106479329266892 (-51)) /\
  spec_round (S754_finite false 8106479329266892 (-51)) = Some 4.
Proof. repeat split; vm_compute; reflexivity. Qed.

(** ** The claims at concrete inputs *)

(** The value of a computation that returns [Some]. *)
Ltac some_value e :=
  let v := eval vm_compute in e in
  lazymatch v with Some ?o => constr:(o) end.

(** Prove the first conjunct of the goal by evaluation, keeping it as [H]. *)
Ltac eval_first H :=
  lazymatch goal with
  |- ?A /\ _ => assert (H : A) by (vm_compute; reflexivity); split; [exact H|]
  end.

Lemma deal_price_within_bounds_witness :
  exists out,
    Driver.test_buyer_scenarios empty_config empty_config 160000 (mangoes 180000) 220000 = Some out /\
    Driver.deal out = Some (Driver.ByBuyer, 160000) /\ 160000 <= 160000 <= 220000.
Proof.
  let o := some_value (Driver.test_buyer_scenarios empty_config empty_config 160000
                         (mangoes 180000) 220000) in
  exists o.
  eval_first Hrun. eval_first Hd.
  exact (proj1 (deal_price_within_bounds _ _ _ _ _ _ _ _ Hd) Hrun).
Defined.

Lemma buyer_offers_within_budget_witness :
  exists out,
    Driver.test_seller_scenarios empty_config empty_config 160000 (mangoes 180000) 220000 = Some out /\
    Forall (fun x => x <= 220000) (your_offers (Driver.final_context out)).
Proof.
  let o := some_value (Driver.test_seller_scenarios empty_config empty_config 160000
                         (mangoes 180000) 220000) in
  exists o.
  eval_first Hrun.
  exact (buyer_offers_within_budget _ _ _ _ _ _ (or_intror Hrun)).
Defined.

Lemma seller_offer_bounds_witness :
  exists out,
    Driver.test_buyer_scenarios empty_config empty_config 160000 (mangoes 180000) 220000 = Some out /\
    Forall (fun x => 160000 <= x) (seller_offers (Driver.final_context out)).
Proof.
  let o := some_value (Driver.test_buyer_scenarios empty_config empty_config 160000
                         (mangoes 180000) 220000) in
  exists o.
  eval_first Hrun.
  exact (proj1 (seller_offer_bounds _ _ _ _ _ _) Hrun).
Defined.

Lemma session_rounds_bounded_witness :
  exists out,
    Driver.test_buyer_scenarios empty_config empty_config 200000 (mangoes 100000) 150000 = Some out /\
    Driver.deal out = None /\
    current_round (Driver.final_context out) <= 10 /\
    (Driver.deal out = None -> current_round (Driver.final_context out) = 10).
Proof.
  let o := some_value (Driver.test_buyer_scenarios empty_config empty_config 200000
                         (mangoes 100000) 150000) in
  exists o.
  eval_first Hrun. eval_first Hd.
  exact (session_rounds_bounded _ _ _ _ _ _ (or_introl Hrun)).
Defined.

Lemma opening_price_truncates_witness :
  exists r,
    Seller.get_opening_price (Seller.init 0 empty_config) (mangoes 3) = Some r /\
    exists x,
      of_int 3 = Some x /\
      to_int (mul x Seller.default_opening_multiplier) = Some (fst (snd r)) /\
      (float_nonneg (mul x Seller.default_opening_multiplier) ->
       is_floor_of (mul x Seller.default_opening_multiplier) (fst (snd r))).
Proof.
  let r := some_value (Seller.get_opening_price (Seller.init 0 empty_config) (mangoes 3)) in
  exists r.
  eval_first Hrun.
  exact (opening_price_truncates _ _ _ _ _ Hrun).
Defined.

Lemma respond_total_with_default_fallback_witness :
  buyer_config_ok empty_config /\ seller_config_ok buyer_cfg_early_15 /\
  Buyer.respond_to_seller_offer empty_config (Driver.start (mangoes 180000) 220000) 216000 "" <> None /\
  Seller.respond_to_buyer (Seller.init 160000 buyer_cfg_early_15) 153000 2 <> None.
Proof.
  assert (Hb : buyer_config_ok empty_config) by (repeat split).
  assert (Hs : seller_config_ok buyer_cfg_early_15) by (vm_compute; repeat split; discriminate).
  split; [exact Hb|]. split; [exact Hs|]. split.
  - apply (proj1 (proj2 (proj2 respond_total_with_default_fallback))); [exact Hb|vm_compute; reflexivity|vm_compute; reflexivity].
  - apply (proj2 (proj2 (proj2 respond_total_with_default_fallback))); [exact Hs|vm_compute; reflexivity].
Defined.

Lemma buyer_accepts_iff_threshold_and_budget_witness :
  buyer_threshold empty_config (Driver.start (mangoes 180000) 220000) = Some 162000 /\
  150000 <= 162000 /\ 150000 <= 220000 /\
  exists msg, Buyer.respond_to_seller_offer empty_config (Driver.start (mangoes 180000) 220000)
                150000 "" = Some (ACCEPTED, 150000, msg).
Proof.
  eval_first Ht. split; [lia|]. split; [lia|].
  exact (proj1 (buyer_accepts_iff_threshold_and_budget empty_config
                  (Driver.start (mangoes 180000) 220000) 150000 "") 162000 Ht
           ltac:(lia) ltac:(simpl; lia)).
Defined.

Lemma seller_accepts_iff_offer_ge_min_witness :
  160000 <= 170000 /\
  exists msg, Seller.respond_to_buyer (Seller.init 160000 empty_config) 170000 3 = Some (170000, msg, true).
Proof.
  split; [lia|].
  exact (proj1 (seller_accepts_iff_offer_ge_min (Seller.init 160000 empty_config) 170000 3)
           ltac:(simpl; lia)).
Defined.

Lemma buyer_phase_formula_witness :
  exists msg,
    Buyer.generate_opening_offer empty_config (Driver.start (mangoes 180000) 220000) = Some (153000, msg) /\
    exists v,
      int_mul 180000 Buyer.default_early_round_multiplier = Some v /\ 153000 = Z.min v 220000.
Proof.
  let r := some_value (Buyer.generate_opening_offer empty_config (Driver.start (mangoes 180000) 220000)) in
  lazymatch r with (_, ?m) => exists m end.
  eval_first Hrun.
  exact (proj1 (buyer_phase_formula empty_config) _ _ _ Hrun).
Defined.

Lemma seller_message_uses_pre_clamp_counter_witness :
  exists msg,
    Seller.respond_to_buyer (Seller.mkSeller 160000 empty_config (Some 120000)) 100000 3
      = Some (120000, msg, false) /\
    exists pre,
      160000 <= pre /\ 120000 <> pre /\
      (exists v, int_mul 100000 Seller.default_early_round_multiplier = Some v /\
                 pre = Z.max 160000 v) /\
      format Seller.early_round_default [("price", show pre); ("extras", "")] = Some msg.
Proof.
  let r := some_value (Seller.respond_to_buyer (Seller.mkSeller 160000 empty_config (Some 120000)) 100000 3) in
  lazymatch r with (_, ?m, _) => exists m end.
  eval_first Hrun.
  destruct (proj2 (seller_message_uses_pre_clamp_counter _ _ _) _ _ Hrun)
    as (pre & Hmin & _ & Hne & _ & _ & Hearly).
  destruct (Hearly ltac:(vm_compute; reflexivity)) as [Hv Hm].
  exists pre. split; [exact Hmin|]. split.
  - apply Hne. exists 120000. split; [reflexivity|]. simpl in Hmin. lia.
  - split; [exact Hv|exact Hm].
Defined.

(** ** Error paths, transcripts and termination of the drivers *)

(** [float(z)] raises OverflowError once [|z| >= 2^1024]. *)
Lemma round_aux_overflow (s : bool) (mx : positive) :
  2 ^ 1024 <= Zpos mx -> binary_round_aux 53 1024 s (Zpos mx) 0 loc_Exact = S754_infinity s.
Proof.
  intros Hbig. unfold binary_round_aux.
  set (D := Zpos (digits2_pos mx)) in *.
  pose proof (digits2_bounds mx) as [HlowD HmxD]. fold D in HlowD, HmxD.
  assert (HD : 1025 <= D).
  { destruct (Z.le_gt_cases 1025 D) as [|Hlt]; [assumption|].
    assert (2 ^ D <= 2 ^ 1024) by (apply Z.pow_le_mono_r; lia). lia. }
  pose proof (shr_fexp_spec (Zpos mx) 0 loc_Exact ltac:(lia)) as S1.
  destruct (shr_fexp 53 1024 (Zpos mx) 0 loc_Exact) as [r1 e1].
  destruct S1 as [S1m S1e]. rewrite fexp_eq in S1e. change (Zdigits2 (Zpos mx)) with D in S1e.
  clearbody D.
  assert (He1 : e1 = D - 53) by lia. rewrite He1 in S1m |- *. clear S1e He1.
  replace (D - 53 - 0) with (D - 53) in S1m by lia.
  assert (Hq : 2 ^ 52 <= shr_m r1 < 2 ^ 53).
  { rewrite S1m. pose proof (pow2_pos (D - 53) ltac:(lia)) as P.
    split.
    - apply Z.div_le_lower_bound; [lia|].
      rewrite <- Z.pow_add_r by lia. replace (D - 53 + 52) with (D - 1) by lia. lia.
    - apply Z.div_lt_upper_bound; [lia|].
      rewrite <- Z.pow_add_r by lia. replace (D - 53 + 53) with D by lia. lia. }
  pose proof (rne_bounds (shr_m r1) (loc_of_shr_record r1)) as R.
  set (m1 := round_nearest_even (shr_m r1) (loc_of_shr_record r1)) in *. clearbody m1.
  assert (Hm1 : 2 ^ 52 <= m1 <= 2 ^ 53) by lia.
  assert (Hd1 : Zdigits2 m1 <= 54).
  { destruct m1 as [|q|q]; try lia. simpl Zdigits2. apply digits2_le.
    change (2 ^ 54) with (2 * 2 ^ 53). lia. }
  pose proof (shr_fexp_spec m1 (D - 53) loc_Exact ltac:(lia)) as S2.
  destruct (shr_fexp 53 1024 m1 (D - 53) loc_Exact) as [r2 e2].
  destruct S2 as [S2m S2e]. rewrite fexp_eq in S2e.
  assert (He2 : D - 53 <= e2 <= D - 52) by lia.
  assert (Hpos : 0 < shr_m r2).
  { rewrite S2m. apply Z.div_str_pos. split.
    - apply pow2_pos. lia.
    - apply Z.le_trans with (2 ^ 1); [apply Z.pow_le_mono_r; lia|].
      change (2 ^ 1) with 2. lia. }
  destruct (shr_m r2) as [|m|m]; try lia.
  replace (e2 <=? 1024 - 53) with false by (symmetry; apply Z.leb_gt; lia).
  reflexivity.
Qed.

(** [float(z)] for [|z| >= 2^1024]: the rounded value is an infinity. *)
Lemma of_int_large (z : Z) : 2 ^ 1024 <= Z.abs z -> of_int z = None.
Proof.
  intros Hz. unfold of_int, binary_normalize, prec, emax.
  destruct z as [|p|p]; [simpl in Hz; lia| |];
  simpl Z.abs in Hz; unfold binary_round, shl_align;
  pose proof (digits2_bounds p) as [HlowD HmxD];
  (assert (HD : 1025 <= Zpos (digits2_pos p));
   [ destruct (Z.le_gt_cases 1025 (Zpos (digits2_pos p))) as [|Hlt]; [assumption|];
     assert (2 ^ Zpos (digits2_pos p) <= 2 ^ 1024) by (apply Z.pow_le_mono_r; lia); lia | ]);
  rewrite fexp_eq;
  (destruct (Z.max (Zpos (digits2_pos p) + 0 - 53) (-1074) - 0) eqn:E; [lia| |lia]);
  rewrite round_aux_overflow by lia; reflexivity.
Qed.

(** Appending the next role to an alternating transcript. *)
Lemma alt_snoc (n : nat) (a b : string) :
  alternating (S n) a b = app (alternating n a b) [if Nat.even n then a else b].
Proof.
  revert a b. induction n as [|n IH]; intros a b; [reflexivity|].
  change (alternating (S (S n)) a b) with (a :: alternating (S n) b a).
  rewrite IH. change (alternating (S n) a b) with (a :: alternating n b a).
  rewrite Nat.even_succ, <- Nat.negb_even. destruct (Nat.even n); reflexivity.
Qed.

Lemma alt_even (k : nat) (a b : string) :
  app (alternating (k + k) a b) [a] = alternating (S k + k) a b.
Proof.
  simpl plus. rewrite alt_snoc. rewrite Nat.even_add, Bool.eqb_reflx. reflexivity.
Qed.

Lemma alt_odd (k : nat) (a b : string) :
  app (alternating (S k + k) a b) [b] = alternating (S k + S k) a b.
Proof.
  rewrite Nat.add_succ_r. simpl plus. rewrite (alt_snoc (S (k + k))).
  rewrite Nat.even_succ, <- Nat.negb_even, Nat.even_add, Bool.eqb_reflx. reflexivity.
Qed.

Lemma assoc_none {A} (k : string) (l : list (string * A)) :
  assoc k l = None <-> existsb (String.eqb k) (map fst l) = false.
Proof.
  induction l as [|[k' v'] r IH]; simpl; [tauto|].
  destruct (String.eqb k k'); simpl; [split; discriminate|exact IH].
Qed.

(** [str.format] raises KeyError exactly when a field of the template is
    not among the keyword arguments. *)
Lemma format_none (t : template) (kw : list (string * string)) :
  format t kw = None <-> fields_in t (map fst kw) = false.
Proof.
  induction t as [|[s|n] r IH]; simpl; [split; discriminate| |].
  - destruct (format r kw); simpl; rewrite <- IH; split; congruence.
  - destruct (assoc n kw) eqn:E.
    + assert (Hn : existsb (String.eqb n) (map fst kw) = true).
      { destruct (existsb _ _) eqn:E'; [reflexivity|]. apply assoc_none in E'. congruence. }
      rewrite Hn. simpl. destruct (format r kw); simpl; rewrite <- IH; split; congruence.
    + apply assoc_none in E. rewrite E. simpl. split; reflexivity.
Qed.

Section Transcripts.
Import Driver.

Lemma seller_accepts_at (self : Seller.CobraSeller) (bo r : Z) :
  Seller.min_price self <= bo -> exists msg, Seller.respond_to_buyer self bo r = Some (bo, msg, true).
Proof.
  intros H. unfold Seller.respond_to_buyer. apply Z.leb_le in H. rewrite H. eauto.
Qed.

(** The buyer-first loop keeps the transcript alternating, one buyer and
    one seller offer per round, and ends on the closing offer. *)
Lemma buyer_loop_transcript (fuel : nat) (bcfg : Config) (seller : Seller.CobraSeller) :
  forall c so sm acc out,
  buyer_loop fuel bcfg seller c so sm acc = Some out ->
  Z.of_nat (length (your_offers c)) = current_round c ->
  length (seller_offers c) = length (your_offers c) ->
  map fst (messages c) = alternating (length (your_offers c) + length (seller_offers c)) "buyer" "seller" ->
  (exists l, seller_offers c = app l [so]) ->
  (acc = true -> exists l, your_offers c = app l [so]) ->
  (exists l m, messages c = app l [("seller", m)]) ->
  let c' := final_context out in
  Z.of_nat (length (your_offers c')) = current_round c' /\
  length (your_offers c') = (length (seller_offers c') + closed_by ByBuyer (deal out))%nat /\
  map fst (messages c') = alternating (length (your_offers c') + length (seller_offers c')) "buyer" "seller" /\
  (forall w p, deal out = Some (w, p) ->
     (exists l, your_offers c' = app l [p]) /\ (exists l, seller_offers c' = app l [p]) /\
     exists l m, messages c' = app l [(closer_role w, m)]).
Proof.
  assert (Exit : forall (c : NegotiationContext) (so : Z) (acc : bool) (out : Outcome),
    Some (mkOutcome c seller (if acc then Some (BySeller, so) else None)) = Some out ->
    Z.of_nat (length (your_offers c)) = current_round c ->
    length (seller_offers c) = length (your_offers c) ->
    map fst (messages c) = alternating (length (your_offers c) + length (seller_offers c)) "buyer" "seller" ->
    (exists l, seller_offers c = app l [so]) ->
    (acc = true -> exists l, your_offers c = app l [so]) ->
    (exists l m, messages c = app l [("seller", m)]) ->
    let c' := final_context out in
    Z.of_nat (length (your_offers c')) = current_round c' /\
    length (your_offers c') = (length (seller_offers c') + closed_by ByBuyer (deal out))%nat /\
    map fst (messages c') = alternating (length (your_offers c') + length (seller_offers c')) "buyer" "seller" /\
    (forall w p, deal out = Some (w, p) ->
       (exists l, your_offers c' = app l [p]) /\ (exists l, seller_offers c' = app l [p]) /\
       exists l m, messages c' = app l [(closer_role w, m)])).
  { intros c so acc out H H1 H2 H3 H4 H5 H6. injection H as <-. simpl.
    split; [exact H1|]. split; [destruct acc; simpl; lia|]. split; [exact H3|].
    intros w p Hd. destruct acc; [|discriminate]. injection Hd as <- <-. simpl. auto. }
  induction fuel as [|fuel IH]; intros c so sm acc out H H1 H2 H3 H4 H5 H6;
    simpl in H; destruct (negb acc && (current_round c <? 10)) eqn:Hc;
    [discriminate | eapply Exit; eauto | | eapply Exit; eauto].
  destruct (Buyer.respond_to_seller_offer _ _ _ _) as [[[st bo] bm]|] eqn:Hb; [|discriminate].
  apply respond_price_le_budget in Hb as [_ Hst].
  set (k := length (your_offers c)) in *.
  assert (E1 : map fst (messages (record_buyer (next_round c) bo bm)) = alternating (S k + k) "buyer" "seller").
  { simpl. rewrite map_app, H3, H2. apply alt_even. }
  assert (E2 : forall m, map fst (app (messages (record_buyer (next_round c) bo bm)) [("seller", m)])
                = alternating (S k + S k) "buyer" "seller").
  { intros m. rewrite map_app, E1. apply alt_odd. }
  destruct st.
  2:{ injection H as <-. specialize (Hst eq_refl). subst bo. simpl.
      rewrite length_app, H2. fold k. cbn [length]. simpl in E1.
      replace (k + 1 + k)%nat with (S k + k)%nat by lia.
      split; [lia|]. split; [lia|]. split; [exact E1|].
      intros w p [= <- <-]. simpl. split; [eauto|]. split; [exact H4|]. eauto. }
  all: destruct (Seller.respond_to_buyer _ _ _) as [[[so' sm'] acc']|] eqn:Hs; [|discriminate].
  all: destruct acc'.
  all: try (injection H as <-; apply respond_to_buyer_accept in Hs as [-> _]; simpl;
            rewrite !length_app, H2; fold k; cbn [length]; simpl in E2;
            replace (k + 1 + (k + 1))%nat with (S k + S k)%nat by lia;
            split; [lia|]; split; [lia|];
            split; [apply E2|];
            intros w p [= <- <-]; simpl; split; [eauto|]; split; [eauto|]; eauto; fail).
  all: apply IH in H; auto; simpl; rewrite ?length_app, ?H2; fold k; cbn [length]; simpl in E2;
    try replace (k + 1 + (k + 1))%nat with (S k + S k)%nat by lia;
    [ lia | lia | apply E2 | eauto | discriminate | eauto ].
Qed.

(** The same for the seller-first loop. *)
Lemma seller_loop_transcript (fuel : nat) (bcfg : Config) (seller : Seller.CobraSeller) :
  forall c bo out,
  seller_loop fuel bcfg seller c bo false = Some out ->
  Z.of_nat (length (seller_offers c)) = current_round c ->
  length (your_offers c) = length (seller_offers c) ->
  map fst (messages c) = alternating (length (seller_offers c) + length (your_offers c)) "seller" "buyer" ->
  (exists l, your_offers c = app l [bo]) ->
  let c' := final_context out in
  Z.of_nat (length (seller_offers c')) = current_round c' /\
  length (seller_offers c') = (length (your_offers c') + closed_by BySeller (deal out))%nat /\
  map fst (messages c') = alternating (length (seller_offers c') + length (your_offers c')) "seller" "buyer" /\
  (forall w p, deal out = Some (w, p) ->
     (exists l, your_offers c' = app l [p]) /\ (exists l, seller_offers c' = app l [p]) /\
     exists l m, messages c' = app l [(closer_role w, m)]).
Proof.
  induction fuel as [|fuel IH]; intros c bo out H H1 H2 H3 H4;
    simpl in H; destruct (current_round c <? 10) eqn:Hc;
    try discriminate;
    try (injection H as <-; simpl; split; [exact H1|]; split; [lia|]; split; [exact H3|];
         intros w p Hd; discriminate).
  destruct (Seller.respond_to_buyer _ _ _) as [[[so sm] acc']|] eqn:Hs; [|discriminate].
  set (k := length (seller_offers c)) in *.
  assert (E1 : map fst (messages (record_seller (next_round c) so sm)) = alternating (S k + k) "seller" "buyer").
  { simpl. rewrite map_app, H3, H2. apply alt_even. }
  destruct acc'.
  { injection H as <-. apply respond_to_buyer_accept in Hs as [-> _]. simpl.
    rewrite length_app, H2. fold k. cbn [length]. simpl in E1.
    replace (k + 1 + k)%nat with (S k + k)%nat by lia.
    split; [lia|]. split; [lia|]. split; [exact E1|].
    intros w p [= <- <-]. simpl. split; [exact H4|]. split; [eauto|]. eauto. }
  assert (E2 : forall m, map fst (app (messages (record_seller (next_round c) so sm)) [("buyer", m)])
                = alternating (S k + S k) "seller" "buyer").
  { intros m. rewrite map_app, E1. apply alt_odd. }
  destruct (Buyer.respond_to_seller_offer _ _ _ _) as [[[st bo'] bm]|] eqn:Hb; [|discriminate].
  apply respond_price_le_budget in Hb as [_ Hst].
  destruct st.
  2:{ injection H as <-. specialize (Hst eq_refl). subst bo'. simpl.
      rewrite !length_app, H2. fold k. cbn [length]. simpl in E2.
      replace (k + 1 + (k + 1))%nat with (S k + S k)%nat by lia.
      split; [lia|]. split; [lia|]. split; [apply E2|].
      intros w p [= <- <-]. simpl. split; [eauto|]. split; [eauto|]. eauto. }
  all: apply IH in H; auto; simpl; rewrite ?length_app, ?H2; fold k; cbn [length]; simpl in E2;
    try replace (k + 1 + (k + 1))%nat with (S k + S k)%nat by lia;
    [ lia | lia | apply E2 | eauto ].
Qed.

Lemma buyer_first_transcript_facts (bcfg scfg : Config) (seller_min : Z) (p : Product) (budget : Z)
    (out : Outcome) :
  test_buyer_scenarios bcfg scfg seller_min p budget = Some out ->
  let c' := final_context out in
  Z.of_nat (length (your_offers c')) = current_round c' /\
  length (your_offers c') = (length (seller_offers c') + closed_by ByBuyer (deal out))%nat /\
  map fst (messages c') = alternating (length (your_offers c') + length (seller_offers c')) "buyer" "seller" /\
  (forall w p, deal out = Some (w, p) ->
     (exists l, your_offers c' = app l [p]) /\ (exists l, seller_offers c' = app l [p]) /\
     exists l m, messages c' = app l [(closer_role w, m)]).
Proof.
  unfold test_buyer_scenarios. intros H.
  destruct (Buyer.generate_opening_offer _ _) as [[bo bm]|]; [|discriminate].
  destruct (Seller.respond_to_buyer _ _ _) as [[[so sm] acc]|] eqn:Hs; [|discriminate].
  eapply buyer_loop_transcript; [exact H|reflexivity|reflexivity|reflexivity| | |].
  - exists []. reflexivity.
  - intros ->. apply respond_to_buyer_accept in Hs as [-> _]. exists []. reflexivity.
  - exists [("buyer", bm)], sm. reflexivity.
Qed.

Lemma seller_first_transcript_facts (bcfg scfg : Config) (seller_min : Z) (p : Product) (budget : Z)
    (out : Outcome) :
  test_seller_scenarios bcfg scfg seller_min p budget = Some out ->
  let c' := final_context out in
  Z.of_nat (length (seller_offers c')) = current_round c' /\
  length (seller_offers c') = (length (your_offers c') + closed_by BySeller (deal out))%nat /\
  map fst (messages c') = alternating (length (seller_offers c') + length (your_offers c')) "seller" "buyer" /\
  (forall w p, deal out = Some (w, p) ->
     (exists l, your_offers c' = app l [p]) /\ (exists l, seller_offers c' = app l [p]) /\
     exists l m, messages c' = app l [(closer_role w, m)]).
Proof.
  unfold test_seller_scenarios. intros H.
  destruct (Seller.get_opening_price _ _) as [[seller [o om]]|]; [|discriminate].
  destruct (Buyer.respond_to_seller_offer _ _ _ _) as [[[st bo] bm]|] eqn:Hb; [|discriminate].
  apply respond_price_le_budget in Hb as [_ Hst].
  destruct st.
  2:{ injection H as <-. specialize (Hst eq_refl). subst bo. simpl.
      split; [reflexivity|]. split; [reflexivity|]. split; [reflexivity|].
      intros w p' [= <- <-]. split; [exists []; reflexivity|]. split; [exists []; reflexivity|].
      exists [("seller", om)], bm. reflexivity. }
  all: eapply seller_loop_transcript; [exact H|reflexivity|reflexivity|reflexivity|exists []; reflexivity].
Qed.

Lemma buyer_final_counter (cfg : Config) (ctx : NegotiationContext) (sp : Z) (sm : string)
    (st : DealStatus) (pr : Z) (msg : string) :
  Buyer.respond_to_seller_offer cfg ctx sp sm = Some (st, pr, msg) ->
  buyer_force_round cfg <= current_round ctx ->
  st = ACCEPTED \/ pr = Z.min sp (your_budget ctx).
Proof.
  unfold Buyer.respond_to_seller_offer, buyer_force_round. intros H Hf.
  apply Z.leb_le in Hf. rewrite Hf in H. split_matches; auto.
Qed.

Lemma seller_counter_ge_min (self : Seller.CobraSeller) (bo r price : Z) (msg : string) (o : Z) :
  Seller.respond_to_buyer self bo r = Some (price, msg, false) ->
  (Seller.opening_price self = None \/
   Seller.opening_price self = Some o /\ Seller.min_price self <= o) ->
  Seller.min_price self <= price.
Proof.
  intros H Ho. apply respond_to_buyer_counter in H as [pre [Hpre ->]].
  destruct Ho as [-> | [-> Ho]]; simpl; lia.
Qed.

(** Once the buyer's force-close round is reached in the buyer-first loop,
    the buyer offers [min(seller_price, budget)], which the seller accepts
    when it is at least [min_price]. *)
Lemma buyer_loop_closes (fuel : nat) (bcfg : Config) (seller : Seller.CobraSeller) :
  Seller.opening_price seller = None ->
  buyer_force_round bcfg <= 10 ->
  forall c so sm acc out,
  buyer_loop fuel bcfg seller c so sm acc = Some out ->
  Seller.min_price seller <= so ->
  Seller.min_price seller <= your_budget c ->
  (acc = true \/ current_round c < 10) ->
  deal out <> None.
Proof.
  intros Hop HF. induction fuel as [|fuel IH]; intros c so sm acc out H Hso Hbud Hinv;
    simpl in H; destruct (negb acc && (current_round c <? 10)) eqn:Hc; try discriminate;
    try (injection H as <-; simpl; destruct acc; [discriminate|];
         destruct Hinv as [?|Hr]; [discriminate|]; apply Z.ltb_lt in Hr; rewrite Hr in Hc;
         discriminate).
  destruct (Buyer.respond_to_seller_offer _ _ _ _) as [[[st bo] bm]|] eqn:Hb; [|discriminate].
  destruct st; [| injection H as <-; discriminate | ].
  all: destruct (Z.le_gt_cases (buyer_force_round bcfg) (current_round c + 1)) as [Hf|Hf].
  all: try (apply buyer_final_counter in Hb; [|exact Hf];
            destruct Hb as [Hb|Hb]; [discriminate|];
            destruct (seller_accepts_at seller bo (current_round c + 1)) as [m Hm];
            [simpl in Hb; lia|];
            cbn [current_round record_buyer next_round] in H; rewrite Hm in H;
            injection H as <-; discriminate).
  all: destruct (Seller.respond_to_buyer _ _ _) as [[[so' sm'] acc']|] eqn:Hs; [|discriminate];
    destruct acc'; [injection H as <-; discriminate|];
    apply (seller_counter_ge_min _ _ _ _ _ 0) in Hs; [|left; exact Hop];
    apply IH in H; auto; right; simpl; lia.
Qed.

(** The seller-first loop: a buyer offer in the force-close phase is at
    least [min_price] and is accepted in the next round. *)
Lemma seller_loop_closes (fuel : nat) (bcfg : Config) (seller : Seller.CobraSeller) (o : Z) :
  Seller.opening_price seller = Some o ->
  Seller.min_price seller <= o ->
  buyer_force_round bcfg <= 9 ->
  forall c bo out,
  seller_loop fuel bcfg seller c bo false = Some out ->
  Seller.min_price seller <= your_budget c ->
  current_round c <= 9 ->
  (buyer_force_round bcfg <= current_round c -> Seller.min_price seller <= bo) ->
  deal out <> None.
Proof.
  intros Hop Ho HF. induction fuel as [|fuel IH]; intros c bo out H Hbud Hr Hbo;
    simpl in H; destruct (current_round c <? 10) eqn:Hc; try discriminate;
    try (apply Z.ltb_ge in Hc; lia).
  destruct (Seller.respond_to_buyer _ _ _) as [[[so sm] acc]|] eqn:Hs; [|discriminate].
  destruct acc; [injection H as <-; discriminate|].
  assert (Hlt : bo < Seller.min_price seller).
  { destruct (Z.lt_ge_cases bo (Seller.min_price seller)) as [|Hge]; [assumption|].
    destruct (seller_accepts_at seller bo (current_round c + 1) Hge) as [m Hm].
    congruence. }
  assert (Hr' : current_round c < buyer_force_round bcfg).
  { destruct (Z.lt_ge_cases (current_round c) (buyer_force_round bcfg)) as [|Hge]; [assumption|].
    specialize (Hbo Hge). lia. }
  apply (seller_counter_ge_min _ _ _ _ _ o) in Hs as Hso; [|right; auto].
  destruct (Buyer.respond_to_seller_offer _ _ _ _) as [[[st bo'] bm]|] eqn:Hb; [|discriminate].
  destruct st; [| injection H as <-; discriminate | ].
  all: apply IH in H; auto; simpl; try lia;
    intros Hf; apply buyer_final_counter in Hb; [|exact Hf];
    destruct Hb as [Hb|Hb]; [discriminate|]; simpl in Hb; lia.
Qed.

End Transcripts.

(** [test_buyer_scenarios] ends with a deal whenever it runs without an
    exception, the budget is at least the seller's minimum price and the
    buyer's [force_close_round] is at most 10: by then the buyer offers
    [min(seller_price, budget)], and every seller price of this driver is at
    least [min_price]. *)
Theorem buyer_first_always_closes (bcfg scfg : Config) (seller_min : Z) (p : Product) (budget : Z)
    (out : Driver.Outcome) :
  Driver.test_buyer_scenarios bcfg scfg seller_min p budget = Some out ->
  seller_min <= budget -> buyer_force_round bcfg <= 10 ->
  Driver.deal out <> None.
Proof.
  unfold Driver.test_buyer_scenarios. intros H Hb HF.
  destruct (Buyer.generate_opening_offer _ _) as [[bo bm]|]; [|discriminate].
  destruct (Seller.respond_to_buyer _ _ _) as [[[so sm] acc]|] eqn:Hs; [|discriminate].
  apply (buyer_loop_closes 10 bcfg (Seller.init seller_min scfg) eq_refl HF _ _ _ _ _ H); [ |simpl; exact Hb| ].
  - destruct acc.
    + apply respond_to_buyer_accept in Hs as [-> Hm]. exact Hm.
    + exact (seller_counter_ge_min _ _ _ _ _ 0 Hs (or_introl eq_refl)).
  - right. reflexivity.
Qed.

(** [test_seller_scenarios] ends with a deal whenever it runs without an
    exception, the seller's opening price and the budget are at least the
    seller's minimum price, and the buyer's [force_close_round] is at most
    9 (a buyer offer made in round 10 is never answered). *)
Theorem seller_first_closes (bcfg scfg : Config) (seller_min : Z) (p : Product) (budget : Z)
    (o : Z) (out : Driver.Outcome) :
  Driver.test_seller_scenarios bcfg scfg seller_min p budget = Some out ->
  seller_opening scfg p = Some o ->
  seller_min <= o -> seller_min <= budget -> buyer_force_round bcfg <= 9 ->
  Driver.deal out <> None.
Proof.
  unfold Driver.test_seller_scenarios. intros H Ho Hmo Hb HF.
  destruct (Seller.get_opening_price _ _) as [[seller [o' om]]|] eqn:Hg; [|discriminate].
  apply get_opening_price_spec in Hg as [-> Hg]. simpl in Hg. rewrite Ho in Hg.
  injection Hg as <-.
  destruct (Buyer.respond_to_seller_offer _ _ _ _) as [[[st bo] bm]|] eqn:Hr; [|discriminate].
  destruct st; [| injection H as <-; discriminate | ].
  all: apply (seller_loop_closes 10 bcfg (Seller.mkSeller seller_min scfg (Some o)) o eq_refl Hmo HF _ _ _ H); [exact Hb|simpl; lia|];
    intros Hf; apply buyer_final_counter in Hr; [|exact Hf];
    destruct Hr as [Hr|Hr]; [discriminate|]; simpl in Hr; simpl; lia.
Qed.

(** The transcripts of both drivers: the opening party makes exactly
    [current_round] offers, the other party as many unless the opening
    party closed the deal (then one fewer), and the messages alternate
    between the two roles, one per offer, starting with the opening party. *)
Theorem transcript_shape (bcfg scfg : Config) (seller_min : Z) (p : Product) (budget : Z)
    (out : Driver.Outcome) :
  (Driver.test_buyer_scenarios bcfg scfg seller_min p budget = Some out ->
   let c := Driver.final_context out in
   Z.of_nat (length (your_offers c)) = current_round c /\
   length (your_offers c) = (length (seller_offers c) + closed_by Driver.ByBuyer (Driver.deal out))%nat /\
   map fst (messages c) = alternating (length (messages c)) "buyer" "seller" /\
   length (messages c) = (length (your_offers c) + length (seller_offers c))%nat) /\
  (Driver.test_seller_scenarios bcfg scfg seller_min p budget = Some out ->
   let c := Driver.final_context out in
   Z.of_nat (length (seller_offers c)) = current_round c /\
   length (seller_offers c) = (length (your_offers c) + closed_by Driver.BySeller (Driver.deal out))%nat /\
   map fst (messages c) = alternating (length (messages c)) "seller" "buyer" /\
   length (messages c) = (length (seller_offers c) + length (your_offers c))%nat).
Proof.
  assert (Halt : forall n a b, length (alternating n a b) = n).
  { induction n as [|n IH]; intros; simpl; [reflexivity|]. rewrite IH. reflexivity. }
  split; intros H.
  - destruct (buyer_first_transcript_facts _ _ _ _ _ _ H) as (E1 & E2 & E3 & _).
    assert (L : length (messages (Driver.final_context out))
                = (length (your_offers (Driver.final_context out))
                   + length (seller_offers (Driver.final_context out)))%nat).
    { rewrite <- (length_map fst), E3. apply Halt. }
    simpl. rewrite L. auto.
  - destruct (seller_first_transcript_facts _ _ _ _ _ _ H) as (E1 & E2 & E3 & _).
    assert (L : length (messages (Driver.final_context out))
                = (length (seller_offers (Driver.final_context out))
                   + length (your_offers (Driver.final_context out)))%nat).
    { rewrite <- (length_map fst), E3. apply Halt. }
    simpl. rewrite L. auto.
Qed.

(** In both drivers the agreed price is the last entry of both offer lists,
    and the last message of the transcript is the closing party's. *)
Theorem deal_is_last_offer (bcfg scfg : Config) (seller_min : Z) (p : Product) (budget : Z)
    (out : Driver.Outcome) (w : Driver.Closer) (price : Z) :
  (Driver.test_buyer_scenarios bcfg scfg seller_min p budget = Some out \/
   Driver.test_seller_scenarios bcfg scfg seller_min p budget = Some out) ->
  Driver.deal out = Some (w, price) ->
  let c := Driver.final_context out in
  (exists l, your_offers c = app l [price]) /\
  (exists l, seller_offers c = app l [price]) /\
  (exists l m, messages c = app l [(closer_role w, m)]).
Proof.
  intros [H|H] Hd.
  - exact (proj2 (proj2 (proj2 (buyer_first_transcript_facts _ _ _ _ _ _ H))) w price Hd).
  - exact (proj2 (proj2 (proj2 (seller_first_transcript_facts _ _ _ _ _ _ H))) w price Hd).
Qed.

(** [CobraBuyer.respond_to_seller_offer] never returns
    [DealStatus.REJECTED]. *)
Theorem buyer_never_rejects (cfg : Config) (ctx : NegotiationContext) (sp : Z) (sm : string)
    (st : DealStatus) (pr : Z) (msg : string) :
  Buyer.respond_to_seller_offer cfg ctx sp sm = Some (st, pr, msg) -> st <> REJECTED.
Proof.
  unfold Buyer.respond_to_seller_offer. intros H. split_matches; discriminate.
Qed.

(** A counter of [CobraSeller.respond_to_buyer] answers an offer below
    [min_price]; it is strictly above the buyer's offer when the seller has
    no opening price, and otherwise exactly when the opening price is. *)
Theorem seller_counter_vs_offer (self : Seller.CobraSeller) (bo r price : Z) (msg : string) :
  Seller.respond_to_buyer self bo r = Some (price, msg, false) ->
  bo < Seller.min_price self /\
  (Seller.opening_price self = None -> bo < price) /\
  (forall o, Seller.opening_price self = Some o -> (bo < price <-> bo < o)).
Proof.
  intros H.
  assert (Hlt : bo < Seller.min_price self).
  { destruct (Z.lt_ge_cases bo (Seller.min_price self)) as [|Hge]; [assumption|].
    destruct (seller_accepts_at self bo r Hge) as [m Hm]. congruence. }
  apply respond_to_buyer_counter in H as [pre [Hpre ->]].
  split; [exact Hlt|]. split.
  - intros ->. simpl. lia.
  - intros o ->. simpl. lia.
Qed.

(** In a force-close round a seller counter is [min_price], capped by the
    opening price, and the message is the [force_close] catchphrase
    formatted with [min_price]. *)
Theorem seller_force_close_counter (self : Seller.CobraSeller) (bo r price : Z) (msg : string) :
  get (force_close_round (Seller.config self)) Seller.default_force_close_round <= r ->
  Seller.respond_to_buyer self bo r = Some (price, msg, false) ->
  price = Seller.clamp (Seller.opening_price self) (Seller.min_price self) /\
  format (get (assoc "force_close" (get (catchphrases (Seller.config self)) []))
            Seller.force_close_default)
         [("price", show (Seller.min_price self))] = Some msg.
Proof.
  intros Hf H. unfold Seller.respond_to_buyer in H.
  apply Z.leb_le in Hf. rewrite Hf in H.
  destruct (Seller.min_price self <=? bo) eqn:Hm; [discriminate|]. apply Z.leb_gt in Hm.
  rewrite Z.max_l in H by lia. split_matches. auto.
Qed.

(** When the buyer does not accept, [respond_to_seller_offer] raises
    KeyError exactly when the catchphrase of the phase ([final],
    [mid_round] or [standard]) has a field other than [{price}] (once the
    multiplier product is computed). *)
Theorem buyer_phrase_keyerror (cfg : Config) (ctx : NegotiationContext) (sp : Z) (sm : string)
    (threshold : Z) :
  buyer_threshold cfg ctx = Some threshold ->
  ~ (sp <= threshold /\ sp <= your_budget ctx) ->
  let phrases := get (catchphrases cfg) [] in
  let r := current_round ctx in
  let F := buyer_force_round cfg in
  (F <= r ->
     (Buyer.respond_to_seller_offer cfg ctx sp sm = None <->
      fields_in (get (assoc "final" phrases) Buyer.final_default) ["price"] = false)) /\
  (forall v, F - 3 <= r < F ->
     int_mul sp (get (mid_round_multiplier cfg) Buyer.default_mid_round_multiplier) = Some v ->
     (Buyer.respond_to_seller_offer cfg ctx sp sm = None <->
      fields_in (get (assoc "mid_round" phrases) Buyer.mid_round_default) ["price"] = false)) /\
  (forall v, r < F - 3 ->
     int_mul sp (get (early_round_multiplier cfg) Buyer.default_early_round_multiplier) = Some v ->
     (Buyer.respond_to_seller_offer cfg ctx sp sm = None <->
      fields_in (get (assoc "standard" phrases) Buyer.standard_default) ["price"] = false)).
Proof.
  unfold buyer_threshold, buyer_force_round. intros Ht Hn. cbv zeta.
  unfold Buyer.respond_to_seller_offer. rewrite Ht.
  destruct ((sp <=? threshold) && (sp <=? your_budget ctx)) eqn:Hacc.
  { exfalso. apply Hn. apply andb_true_iff in Hacc. destruct Hacc as [A B].
    apply Z.leb_le in A, B. auto. }
  split; [|split].
  - intros Hf. apply Z.leb_le in Hf. rewrite Hf.
    match goal with |- context [format ?t ?kw] =>
      pose proof (format_none t kw) as E; destruct (format t kw) end;
    simpl in E; rewrite <- E; split; congruence.
  - intros v [H1 H2] Hv. apply Z.leb_le in H1. apply Z.leb_gt in H2. rewrite H1, H2, Hv.
    match goal with |- context [format ?t ?kw] =>
      pose proof (format_none t kw) as E; destruct (format t kw) end;
    simpl in E; rewrite <- E; split; congruence.
  - intros v H1 Hv.
    replace (get (force_close_round cfg) Buyer.default_force_close_round <=? current_round ctx)
      with false by (symmetry; apply Z.leb_gt; lia).
    replace (get (force_close_round cfg) Buyer.default_force_close_round - 3 <=? current_round ctx)
      with false by (symmetry; apply Z.leb_gt; lia).
    rewrite Hv.
    match goal with |- context [format ?t ?kw] =>
      pose proof (format_none t kw) as E; destruct (format t kw) end;
    simpl in E; rewrite <- E; split; congruence.
Qed.


(** [get_opening_price] raises KeyError exactly when the [opening]
    catchphrase has a field other than [{quality_grade}],
    [{product_name}], [{price}]; otherwise it returns the opening price [o]
    and sets [opening_price] to it, leaving [min_price] and the
    configuration unchanged. *)
Theorem opening_price_state_and_keyerror (self : Seller.CobraSeller) (p : Product) (o : Z) :
  seller_opening (Seller.config self) p = Some o ->
  (Seller.get_opening_price self p = None <->
   fields_in (get (assoc "opening" (get (catchphrases (Seller.config self)) [])) Seller.opening_default)
     ["quality_grade"; "product_name"; "price"] = false) /\
  (forall self' price msg, Seller.get_opening_price self p = Some (self', (price, msg)) ->
     price = o /\ self' = Seller.mkSeller (Seller.min_price self) (Seller.config self) (Some price)).
Proof.
  intros Ho. split.
  - unfold seller_opening in Ho. unfold Seller.get_opening_price. rewrite Ho.
    match goal with |- context [format ?t ?kw] =>
      pose proof (format_none t kw) as E; destruct (format t kw) end;
    simpl in E; rewrite <- E; split; congruence.
  - intros self' price msg H. apply get_opening_price_spec in H as [-> H].
    rewrite Ho in H. injection H as ->. auto.
Qed.

(** [generate_opening_offer] raises KeyError exactly when the buyer's
    [opening] catchphrase has a field other than [{price}]. *)
Theorem opening_offer_keyerror (cfg : Config) (ctx : NegotiationContext) (v : Z) :
  int_mul (base_market_price (product ctx))
    (get (early_round_multiplier cfg) Buyer.default_early_round_multiplier) = Some v ->
  (Buyer.generate_opening_offer cfg ctx = None <->
   fields_in (get (assoc "opening" (get (catchphrases cfg) [])) Buyer.opening_default) ["price"] = false).
Proof.
  intros Hv. unfold Buyer.generate_opening_offer. rewrite Hv.
  match goal with |- context [format ?t ?kw] =>
    pose proof (format_none t kw) as E; destruct (format t kw) end;
  simpl in E; rewrite <- E; split; congruence.
Qed.

(** A base market price of magnitude [2^1024] or more makes
    [generate_opening_offer], [respond_to_seller_offer] (even for an
    acceptable price) and [get_opening_price] raise OverflowError. *)
Theorem base_price_overflow (cfg : Config) (ctx : NegotiationContext) (sp : Z) (sm : string)
    (self : Seller.CobraSeller) :
  2 ^ 1024 <= Z.abs (base_market_price (product ctx)) ->
  Buyer.generate_opening_offer cfg ctx = None /\
  Buyer.respond_to_seller_offer cfg ctx sp sm = None /\
  Seller.get_opening_price self (product ctx) = None.
Proof.
  intros H. pose proof (of_int_large _ H) as E.
  unfold Buyer.generate_opening_offer, Buyer.respond_to_seller_offer, Seller.get_opening_price, int_mul.
  rewrite E. auto.
Qed.


(** The loops only increase the round counter. *)
Lemma buyer_loop_round_ge (fuel : nat) (bcfg : Config) (seller : Seller.CobraSeller) :
  forall c so sm acc out,
  Driver.buyer_loop fuel bcfg seller c so sm acc = Some out ->
  current_round c <= current_round (Driver.final_context out).
Proof.
  induction fuel as [|fuel IH]; intros c so sm acc out H; simpl in H;
    destruct (negb acc && (current_round c <? 10)); try discriminate;
    try (injection H as <-; simpl; lia).
  destruct (Buyer.respond_to_seller_offer _ _ _ _) as [[[st bo] bm]|]; [|discriminate].
  destruct st; [| injection H as <-; simpl; lia | ];
    (destruct (Seller.respond_to_buyer _ _ _) as [[[so' sm'] []]|]; [injection H as <-; simpl; lia| |discriminate]);
    apply IH in H; simpl in H; lia.
Qed.

Lemma seller_loop_round_ge (fuel : nat) (bcfg : Config) (seller : Seller.CobraSeller) :
  forall c bo acc out,
  Driver.seller_loop fuel bcfg seller c bo acc = Some out ->
  current_round c <= current_round (Driver.final_context out).
Proof.
  induction fuel as [|fuel IH]; intros c bo acc out H; simpl in H;
    destruct (negb acc && (current_round c <? 10)); try discriminate;
    try (injection H as <-; simpl; lia).
  destruct (Seller.respond_to_buyer _ _ _) as [[[so sm] []]|]; [injection H as <-; simpl; lia| |discriminate].
  destruct (Buyer.respond_to_seller_offer _ _ _ _) as [[[st bo'] bm]|]; [|discriminate].
  destruct st; [| injection H as <-; simpl; lia | ];
    apply IH in H; simpl in H; lia.
Qed.

Lemma buyer_loop_round_gt (fuel : nat) (bcfg : Config) (seller : Seller.CobraSeller)
    (c : NegotiationContext) (so : Z) (sm : string) (out : Driver.Outcome) :
  Driver.buyer_loop fuel bcfg seller c so sm false = Some out ->
  current_round c < 10 ->
  current_round c < current_round (Driver.final_context out).
Proof.
  intros H Hr. destruct fuel as [|fuel]; simpl in H;
    replace (current_round c <? 10) with true in H by (symmetry; apply Z.ltb_lt; exact Hr);
    [discriminate|].
  destruct (Buyer.respond_to_seller_offer _ _ _ _) as [[[st bo] bm]|]; [|discriminate].
  destruct st; [| injection H as <-; simpl; lia | ];
    (destruct (Seller.respond_to_buyer _ _ _) as [[[so' sm'] []]|]; [injection H as <-; simpl; lia| |discriminate]);
    apply buyer_loop_round_ge in H; simpl in H; lia.
Qed.

Lemma seller_loop_round_gt (fuel : nat) (bcfg : Config) (seller : Seller.CobraSeller)
    (c : NegotiationContext) (bo : Z) (out : Driver.Outcome) :
  Driver.seller_loop fuel bcfg seller c bo false = Some out ->
  current_round c < 10 ->
  current_round c < current_round (Driver.final_context out).
Proof.
  intros H Hr. destruct fuel as [|fuel]; simpl in H;
    replace (current_round c <? 10) with true in H by (symmetry; apply Z.ltb_lt; exact Hr);
    [discriminate|].
  destruct (Seller.respond_to_buyer _ _ _) as [[[so sm] []]|]; [injection H as <-; simpl; lia| |discriminate].
  destruct (Buyer.respond_to_seller_offer _ _ _ _) as [[[st bo'] bm]|]; [|discriminate].
  destruct st; [| injection H as <-; simpl; lia | ];
    apply seller_loop_round_ge in H; simpl in H; lia.
Qed.

Lemma buyer_loop_accepted (fuel : nat) (bcfg : Config) (seller : Seller.CobraSeller)
    (c : NegotiationContext) (so : Z) (sm : string) :
  Driver.buyer_loop fuel bcfg seller c so sm true = Some (Driver.mkOutcome c seller (Some (Driver.BySeller, so))).
Proof. destruct fuel; reflexivity. Qed.

(** Round one: the buyer-first driver stops after round 1 exactly when the
    seller accepts the buyer's opening offer ([offer >= seller_min]); the
    seller-first driver stops after round 1 exactly when the buyer accepts
    the opening price ([o <= threshold] and [o <= budget]). *)
Theorem round_one_close (bcfg scfg : Config) (seller_min : Z) (p : Product) (budget : Z)
    (out : Driver.Outcome) :
  (forall bo bm,
     Driver.test_buyer_scenarios bcfg scfg seller_min p budget = Some out ->
     Buyer.generate_opening_offer bcfg (Driver.start p budget) = Some (bo, bm) ->
     (current_round (Driver.final_context out) = 1 <-> seller_min <= bo) /\
     (seller_min <= bo -> Driver.deal out = Some (Driver.BySeller, bo))) /\
  (forall o threshold,
     Driver.test_seller_scenarios bcfg scfg seller_min p budget = Some out ->
     seller_opening scfg p = Some o ->
     buyer_threshold bcfg (Driver.start p budget) = Some threshold ->
     (current_round (Driver.final_context out) = 1 <-> o <= threshold /\ o <= budget) /\
     (o <= threshold /\ o <= budget -> Driver.deal out = Some (Driver.ByBuyer, o))).
Proof.
  split.
  - intros bo bm H Hg. unfold Driver.test_buyer_scenarios in H. rewrite Hg in H.
    destruct (Z.le_gt_cases seller_min bo) as [Hm|Hm].
    + destruct (seller_accepts_at (Seller.init seller_min scfg) bo
                  (current_round (Driver.record_buyer (Driver.start p budget) bo bm)) Hm) as [m Hs].
      rewrite Hs in H. rewrite buyer_loop_accepted in H. injection H as <-. simpl. split; [tauto|auto].
    + destruct (Seller.respond_to_buyer _ _ _) as [[[so sm] acc]|] eqn:Hs; [|discriminate].
      destruct acc.
      { apply respond_to_buyer_accept in Hs as [_ Hs]. simpl in Hs. lia. }
      apply buyer_loop_round_gt in H; [|reflexivity]. simpl in H.
      split; [split; intros; lia | intros; lia].
  - intros o t H Ho Ht. unfold Driver.test_seller_scenarios in H.
    destruct (Seller.get_opening_price _ _) as [[seller [o' om]]|] eqn:Hg; [|discriminate].
    apply get_opening_price_spec in Hg as [-> Hg]. simpl in Hg. rewrite Ho in Hg.
    injection Hg as <-.
    destruct (Buyer.respond_to_seller_offer _ _ _ _) as [[[st bo] bm]|] eqn:Hb; [|discriminate].
    assert (Hacc : st = ACCEPTED <-> o <= t /\ o <= budget).
    { unfold Buyer.respond_to_seller_offer in Hb. unfold buyer_threshold in Ht.
      simpl in Hb, Ht. rewrite Ht in Hb.
      destruct ((o <=? t) && (o <=? budget)) eqn:Ha.
      - apply andb_true_iff in Ha as [A B]. apply Z.leb_le in A, B.
        injection Hb as <- _ _. tauto.
      - split; [intros ->; split_matches; discriminate|].
        intros [A B]. apply Z.leb_le in A, B. rewrite A, B in Ha. discriminate. }
    apply respond_price_le_budget in Hb as [_ Hst].
    destruct st.
    2:{ injection H as <-. simpl. rewrite (Hst eq_refl). split; [tauto|reflexivity]. }
    all: assert (Hn : ~ (o <= t /\ o <= budget)) by (rewrite <- Hacc; discriminate).
    all: apply seller_loop_round_gt in H; [|reflexivity]; simpl in H.
    all: split; [split; intros; [lia|tauto] | tauto].
Qed.

(** ** The further properties at concrete inputs *)

Lemma buyer_never_rejects_witness :
  exists msg,
    Buyer.respond_to_seller_offer empty_config (Driver.start (mangoes 180000) 220000) 200000 "ok"
      = Some (ONGOING, 170000, msg) /\ ONGOING <> REJECTED.
Proof.
  let r := some_value (Buyer.respond_to_seller_offer empty_config (Driver.start (mangoes 180000) 220000) 200000 "ok") in
  lazymatch r with (_, _, ?m) => exists m end.
  eval_first Hrun.
  exact (buyer_never_rejects _ _ _ _ _ _ _ Hrun).
Defined.

Lemma seller_counter_vs_offer_witness :
  exists msg,
    Seller.respond_to_buyer (Seller.init 160000 empty_config) 100000 2 = Some (160000, msg, false) /\
    100000 < 160000 /\
    (Seller.opening_price (Seller.init 160000 empty_config) = None -> 100000 < 160000) /\
    (forall o, Seller.opening_price (Seller.init 160000 empty_config) = Some o ->
       (100000 < 160000 <-> 100000 < o)).
Proof.
  let r := some_value (Seller.respond_to_buyer (Seller.init 160000 empty_config) 100000 2) in
  lazymatch r with (_, ?m, _) => exists m end.
  eval_first Hrun.
  exact (seller_counter_vs_offer _ _ _ _ _ Hrun).
Defined.

Lemma seller_force_close_counter_witness :
  exists msg,
    Seller.respond_to_buyer (Seller.mkSeller 160000 empty_config (Some 150000)) 100000 10
      = Some (150000, msg, false) /\
    150000 = Seller.clamp (Some 150000) 160000 /\
    format Seller.force_close_default [("price", show 160000)] = Some msg.
Proof.
  let r := some_value (Seller.respond_to_buyer (Seller.mkSeller 160000 empty_config (Some 150000)) 100000 10) in
  lazymatch r with (_, ?m, _) => exists m end.
  eval_first Hrun.
  exact (seller_force_close_counter (Seller.mkSeller 160000 empty_config (Some 150000)) 100000 10 _ _
           ltac:(vm_compute; discriminate) Hrun).
Defined.

Lemma buyer_phrase_keyerror_witness :
  buyer_threshold buyer_cfg_bad_final (mkContext (mangoes 180000) 220000 10 [] [] []) = Some 162000 /\
  Buyer.respond_to_seller_offer buyer_cfg_bad_final (mkContext (mangoes 180000) 220000 10 [] [] [])
    200000 "ok" = None.
Proof.
  eval_first Ht.
  apply (proj1 (buyer_phrase_keyerror buyer_cfg_bad_final (mkContext (mangoes 180000) 220000 10 [] [] [])
                  200000 "ok" 162000 Ht ltac:(lia)) ltac:(vm_compute; discriminate)).
  vm_compute. reflexivity.
Defined.


Lemma opening_price_state_and_keyerror_witness :
  seller_opening cfg_named_opening (mangoes 180000) = Some 216000 /\
  exists r,
    Seller.get_opening_price (Seller.init 160000 cfg_named_opening) (mangoes 180000) = Some r /\
    fst (snd r) = 216000 /\ fst r = Seller.mkSeller 160000 cfg_named_opening (Some 216000).
Proof.
  eval_first Ho.
  let r := some_value (Seller.get_opening_price (Seller.init 160000 cfg_named_opening) (mangoes 180000)) in
  exists r.
  eval_first Hrun.
  exact (proj2 (opening_price_state_and_keyerror (Seller.init 160000 cfg_named_opening) _ _ Ho) _ _ _ Hrun).
Defined.

Lemma opening_offer_keyerror_witness :
  int_mul 180000 Buyer.default_early_round_multiplier = Some 153000 /\
  Buyer.generate_opening_offer cfg_named_opening (Driver.start (mangoes 180000) 220000) = None.
Proof.
  eval_first Hv.
  apply (opening_offer_keyerror cfg_named_opening (Driver.start (mangoes 180000) 220000) 153000 Hv).
  vm_compute. reflexivity.
Defined.

Lemma base_price_overflow_witness :
  Buyer.generate_opening_offer empty_config (Driver.start (mangoes (2 ^ 1024)) 220000) = None /\
  Buyer.respond_to_seller_offer empty_config (Driver.start (mangoes (2 ^ 1024)) 220000) 1 "ok" = None /\
  Seller.get_opening_price (Seller.init 160000 empty_config) (mangoes (2 ^ 1024)) = None.
Proof.
  exact (base_price_overflow empty_config (Driver.start (mangoes (2 ^ 1024)) 220000) 1 "ok"
           (Seller.init 160000 empty_config) ltac:(vm_compute; discriminate)).
Defined.

Lemma transcript_shape_witness :
  exists out,
    Driver.test_buyer_scenarios empty_config empty_config 160000 (mangoes 180000) 220000 = Some out /\
    let c := Driver.final_context out in
    Z.of_nat (length (your_offers c)) = current_round c /\
    length (your_offers c) = (length (seller_offers c) + closed_by Driver.ByBuyer (Driver.deal out))%nat /\
    map fst (messages c) = alternating (length (messages c)) "buyer" "seller" /\
    length (messages c) = (length (your_offers c) + length (seller_offers c))%nat.
Proof.
  let o := some_value (Driver.test_buyer_scenarios empty_config empty_config 160000
                         (mangoes 180000) 220000) in
  exists o.
  eval_first Hrun.
  exact (proj1 (transcript_shape _ _ _ _ _ _) Hrun).
Defined.

Lemma deal_is_last_offer_witness :
  exists out,
    Driver.test_buyer_scenarios empty_config empty_config 160000 (mangoes 180000) 220000 = Some out /\
    Driver.deal out = Some (Driver.ByBuyer, 160000) /\
    let c := Driver.final_context out in
    (exists l, your_offers c = app l [160000]) /\
    (exists l, seller_offers c = app l [160000]) /\
    (exists l m, messages c = app l [(closer_role Driver.ByBuyer, m)]).
Proof.
  let o := some_value (Driver.test_buyer_scenarios empty_config empty_config 160000
                         (mangoes 180000) 220000) in
  exists o.
  eval_first Hrun. eval_first Hd.
  exact (deal_is_last_offer _ _ _ _ _ _ _ _ (or_introl Hrun) Hd).
Defined.

Lemma buyer_first_always_closes_witness :
  exists out,
    Driver.test_buyer_scenarios empty_config empty_config 160000 (mangoes 180000) 220000 = Some out /\
    Driver.deal out <> None.
Proof.
  let o := some_value (Driver.test_buyer_scenarios empty_config empty_config 160000
                         (mangoes 180000) 220000) in
  exists o.
  eval_first Hrun.
  exact (buyer_first_always_closes _ _ _ _ _ _ Hrun ltac:(lia) ltac:(vm_compute; discriminate)).
Defined.

Lemma seller_first_closes_witness :
  seller_opening empty_config (mangoes 180000) = Some 216000 /\
  exists out,
    Driver.test_seller_scenarios buyer_cfg_force_9 empty_config 160000 (mangoes 180000) 220000 = Some out /\
    Driver.deal out <> None.
Proof.
  eval_first Ho.
  let o := some_value (Driver.test_seller_scenarios buyer_cfg_force_9 empty_config 160000
                         (mangoes 180000) 220000) in
  exists o.
  eval_first Hrun.
  exact (seller_first_closes _ _ _ _ _ _ _ Hrun Ho ltac:(lia) ltac:(lia) ltac:(vm_compute; discriminate)).
Defined.

Lemma round_one_close_witness :
  exists bm out,
    Buyer.generate_opening_offer empty_config (Driver.start (mangoes 200000) 220000) = Some (170000, bm) /\
    Driver.test_buyer_scenarios empty_config empty_config 160000 (mangoes 200000) 220000 = Some out /\
    (current_round (Driver.final_context out) = 1 <-> 160000 <= 170000) /\
    (160000 <= 170000 -> Driver.deal out = Some (Driver.BySeller, 170000)).
Proof.
  let r := some_value (Buyer.generate_opening_offer empty_config (Driver.start (mangoes 200000) 220000)) in
  lazymatch r with (_, ?m) => exists m end.
  let o := some_value (Driver.test_buyer_scenarios empty_config empty_config 160000
                         (mangoes 200000) 220000) in
  exists o.
  eval_first Hg. eval_first Hrun.
  exact (proj1 (round_one_close _ _ _ _ _ _) _ _ Hrun Hg).
Defined.
